(** * QR-code generator: vCard formatter, image emitter and input resolver

    A shallow embedding of [generator.py].  Python strings are sequences of
    Unicode code points; the terminal, the clock, the file system and the
    external QR encoder are threaded through an explicit [world]. *)

From Stdlib Require Import ZArith NArith Ascii String List Lia.
From stdpp Require Import base option list gmap strings.
Import ListNotations.

Local Open Scope list_scope.

(** ** Python strings *)

Module PyStr.

(** A Python [str] is a sequence of code points. *)
Definition char := N.
Definition str := list char.

(** A source literal, read character by character. *)
Definition lit (s : string) : str :=
  map N_of_ascii (list_ascii_of_string s).

(** The line feed, written ["\n"] in the source. *)
Definition nl : char := 10%N.

Definition str_eqb (a b : str) : bool := bool_decide (a = b).

(** [bool(s)]: a string is true when it is not empty. *)
Definition nonempty (s : str) : bool :=
  match s with [] => false | _ :: _ => true end.

(** Truth value of an optional string: [None] and [""] are both false. *)
Definition truthy (o : option str) : bool :=
  match o with Some s => nonempty s | None => false end.

(** [s.split(sep)] for a one-character separator. *)
Fixpoint split (sep : char) (s : str) : list str :=
  match s with
  | [] => [[]]
  | c :: s' =>
      if N.eqb c sep then [] :: split sep s'
      else match split sep s' with
           | l :: ls => (c :: l) :: ls
           | [] => [[c]]
           end
  end.

(** [sep.join(parts)]. *)
Fixpoint join (sep : char) (parts : list str) : str :=
  match parts with
  | [] => []
  | [p] => p
  | p :: ps => p ++ sep :: join sep ps
  end.

(** [s.startswith(p)]. *)
Fixpoint startswith (p s : str) : bool :=
  match p, s with
  | [], _ => true
  | _ :: _, [] => false
  | a :: p', b :: s' => N.eqb a b && startswith p' s'
  end.

(** [str.isspace] on one code point, as CPython decides it. *)
Definition isspace (c : char) : bool :=
  ((9 <=? c) && (c <=? 13) || (28 <=? c) && (c <=? 32)
   || (c =? 133) || (c =? 160) || (c =? 5760)
   || (8192 <=? c) && (c <=? 8202)
   || (c =? 8232) || (c =? 8233) || (c =? 8239) || (c =? 8287)
   || (c =? 12288))%N.

Fixpoint lstrip (s : str) : str :=
  match s with
  | c :: s' => if isspace c then lstrip s' else s
  | [] => []
  end.

Definition rstrip (s : str) : str := rev (lstrip (rev s)).

(** [s.strip()]. *)
Definition strip (s : str) : str := rstrip (lstrip s).

End PyStr.
Import PyStr.

(** ** Record formatter *)

(** [generate_contact_vcard(name, phone, email, url=None)]. *)
Definition generate_contact_vcard
    (name phone email : str) (url : option str) : str :=
  let vcard :=
    lit "BEGIN:VCARD" ++ [nl] ++
    lit "VERSION:3.0" ++ [nl] ++
    lit "FN:" ++ name ++ [nl] ++
    lit "TEL:" ++ phone ++ [nl] ++
    lit "EMAIL:" ++ email in
  let vcard :=
    match url with
    | Some u => if nonempty u then vcard ++ [nl] ++ lit "URL:" ++ u else vcard
    | None => vcard
    end in
  vcard ++ [nl] ++ lit "END:VCARD".

(** The lines the schema allots to the optional url. *)
Definition url_field (url : option str) : list str :=
  match url with
  | Some u => if nonempty u then [lit "URL:" ++ u] else []
  | None => []
  end.

(** The fields of the record, one per schema line. *)
Definition vcard_fields (name phone email : str) (url : option str)
    : list str :=
  [lit "BEGIN:VCARD"; lit "VERSION:3.0"; lit "FN:" ++ name;
   lit "TEL:" ++ phone; lit "EMAIL:" ++ email]
  ++ url_field url ++ [lit "END:VCARD"].

(** Lines of [label ++ s]: the label stays on the first line of [s]. *)
Definition labelled (label s : str) : list str :=
  match split nl s with
  | x :: xs => (label ++ x) :: xs
  | [] => [label]
  end.

(** Some line of the text starts with ["URL:"]. *)
Definition has_url_line (out : str) : bool :=
  existsb (startswith (lit "URL:")) (split nl out).

(** The claim that a ["URL:"] line appears exactly when a non-empty url is
    passed, over all arguments. *)
Definition url_line_iff_url_supplied : Prop :=
  forall (name phone email : str) (url : option str),
    has_url_line (generate_contact_vcard name phone email url) = true
    <-> truthy url = true.

(** ** The world the script runs in *)

Module Runtime.

(** The exceptions the script can die of. *)
Inductive exn :=
| EOFError            (* [input()] at end of input *)
| DataOverflowError   (* the encoder cannot represent the payload *)
| OSError             (* the image cannot be written at the path *)
| KeyError.           (* subscript of a key the dict lacks *)

(** [datetime.now()], field by field. *)
Record datetime := {
  year : N; month : N; day : N; hour : N; minute : N; second : N }.

(** Contents of a file. *)
Definition bytes := list Byte.byte.

Record world := {
  stdin : nat -> option str;   (* line [i] of the input, [None] past its end *)
  stdin_pos : nat;             (* lines read so far *)
  stdout : list str;           (* texts written, oldest first *)
  now : datetime;              (* the clock *)
  files : gmap str bytes;      (* the file system, by path *)
  writable : str -> bool;      (* paths a file can be written at *)
  encoded : list str           (* payloads handed to the encoder, oldest first *)
}.

(** How a call ends: it returns, the process exits, an exception
    propagates, or the recursion budget is spent. *)
Inductive outcome (A : Type) :=
| Ret (a : A) (w : world)
| Exit (code : Z) (w : world)
| Raise (e : exn) (w : world)
| OutOfFuel.
Arguments Ret {A} a w.
Arguments Exit {A} code w.
Arguments Raise {A} e w.
Arguments OutOfFuel {A}.

Definition M (A : Type) := world -> outcome A.

Definition ret {A} (a : A) : M A := fun w => Ret a w.

Definition bind {A B} (m : M A) (k : A -> M B) : M B :=
  fun w =>
    match m w with
    | Ret a w' => k a w'
    | Exit c w' => Exit c w'
    | Raise e w' => Raise e w'
    | OutOfFuel => OutOfFuel
    end.

Definition raise {A} (e : exn) : M A := fun w => Raise e w.

(** [exit(code)]. *)
Definition exit {A} (code : Z) : M A := fun w => Exit code w.

(** The world after a text is written to the terminal. *)
Definition write (s : str) (w : world) : world :=
  {| stdin := stdin w; stdin_pos := stdin_pos w;
     stdout := stdout w ++ [s];
     now := now w; files := files w; writable := writable w;
     encoded := encoded w |}.

(** The world after one line of input is taken. *)
Definition consume (w : world) : world :=
  {| stdin := stdin w; stdin_pos := S (stdin_pos w);
     stdout := stdout w;
     now := now w; files := files w; writable := writable w;
     encoded := encoded w |}.

(** The world after a file is created or overwritten. *)
Definition store (path : str) (content : bytes) (w : world) : world :=
  {| stdin := stdin w; stdin_pos := stdin_pos w;
     stdout := stdout w; now := now w;
     files := <[path := content]> (files w);
     writable := writable w; encoded := encoded w |}.

(** The world after a payload is handed to the encoder. *)
Definition submit (data : str) (w : world) : world :=
  {| stdin := stdin w; stdin_pos := stdin_pos w;
     stdout := stdout w; now := now w; files := files w;
     writable := writable w;
     encoded := encoded w ++ [data] |}.

(** [print(s)]. *)
Definition print (s : str) : M unit :=
  fun w => Ret tt (write (s ++ [nl]) w).

(** [input(prompt)]: show the prompt, read one line without its end. *)
Definition input (prompt : str) : M str :=
  fun w =>
    match stdin w (stdin_pos w) with
    | Some line => Ret line (consume (write prompt w))
    | None => Raise EOFError (write prompt w)
    end.

Definition digit (d : N) : char := (48 + d mod 10)%N.

Definition pad2 (n : N) : str := [digit (n / 10); digit n].

Definition pad4 (n : N) : str :=
  [digit (n / 1000); digit (n / 100); digit (n / 10); digit n].

(** [d.strftime("%Y%m%d_%H%M%S")]. *)
Definition strftime (d : datetime) : str :=
  pad4 (year d) ++ pad2 (month d) ++ pad2 (day d) ++ lit "_" ++
  pad2 (hour d) ++ pad2 (minute d) ++ pad2 (second d).

(** [datetime.now()]. *)
Definition datetime_now : M datetime := fun w => Ret (now w) w.

(** [img.save(path)]: create or overwrite the file at the path. *)
Definition save (img : bytes) (path : str) : M unit :=
  fun w =>
    if writable w path then Ret tt (store path img w)
    else Raise OSError w.

End Runtime.
Import Runtime.

Notation "'let*' x ':=' m 'in' k" := (bind m (fun x => k))
  (at level 10, x pattern, m at level 100, k at level 200).

(** The formatter as a step of the script: it computes its result from its
    arguments alone. *)
Definition vcard_call (name phone email : str) (url : option str) : M str :=
  ret (generate_contact_vcard name phone email url).

(** ** The external QR encoder *)

Inductive error_correction := ERROR_CORRECT_L | ERROR_CORRECT_M
                            | ERROR_CORRECT_Q | ERROR_CORRECT_H.

(** The symbology parameters the script passes. *)
Record qr_params := {
  version : N; correction : error_correction; box_size : N; border : N;
  fit : bool; fill_color : str; back_color : str }.

(** The [qrcode] package: from parameters and a payload, the image file, or
    nothing when the payload cannot be represented. *)
Class QRCodeLib := { make_image : qr_params -> str -> option bytes }.

(** The parameters of the one [QRCode(...)] call in the script. *)
Definition qr_settings : qr_params :=
  {| version := 1; correction := ERROR_CORRECT_L; box_size := 10;
     border := 4; fit := true;
     fill_color := lit "black"; back_color := lit "white" |}.

Section Emitter.
Context {lib : QRCodeLib}.

(** [QRCode(...); add_data(data); make(fit=True); make_image(...)]. *)
Definition qr_image (p : qr_params) (data : str) : M bytes :=
  fun w =>
    match make_image p data with
    | Some img => Ret img (submit data w)
    | None => Raise DataOverflowError (submit data w)
    end.

(** [generate_qr_code(data, output_path=None)]. *)
Definition generate_qr_code (data : str) (output_path : option str)
    : M unit :=
  let* output_path :=
    match output_path with
    | None =>
        let* d := datetime_now in
        let timestamp := strftime d in
        ret (lit "qrcode_" ++ timestamp ++ lit ".png")
    | Some p => ret p
    end in
  let* img := qr_image qr_settings data in
  let* _ := save img output_path in
  print (lit "QR code saved to " ++ output_path).

End Emitter.

(** ** Input resolver *)

(** A Python value held in the returned dict: a string or [None]. *)
Definition pyval := option str.

(** [d[key]]. *)
Definition getitem (d : gmap string pyval) (key : string) : M pyval :=
  match d !! key with
  | Some v => ret v
  | None => raise KeyError
  end.

(** [d.get(key)]: [None] when the key is absent. *)
Definition dict_get (d : gmap string pyval) (key : string) : pyval :=
  match d !! key with
  | Some v => v
  | None => None
  end.

(** [d.get(key, default)]. *)
Definition dict_get_default (d : gmap string pyval) (key : string)
    (dflt : pyval) : pyval :=
  match d !! key with
  | Some v => v
  | None => dflt
  end.

(** [str(v)], as an f-string or the encoder renders a value. *)
Definition py_str (v : pyval) : str :=
  match v with
  | Some s => s
  | None => lit "None"
  end.

(** [{"type": "website", "url": url}]. *)
Definition website_dict (url : str) : gmap string pyval :=
  <["type" := Some (lit "website")]> (<["url" := Some url]> ∅).

(** [{"type": "contact", "name": name, "phone": phone, "email": email,
      "url": url}]. *)
Definition contact_dict (name phone email : str) (url : pyval)
    : gmap string pyval :=
  <["type" := Some (lit "contact")]>
    (<["name" := Some name]>
       (<["phone" := Some phone]>
          (<["email" := Some email]>
             (<["url" := url]> ∅)))).

(** [get_user_input_interactive()].  The argument bounds the depth of the
    recursion; each invalid choice costs one level. *)
Fixpoint get_user_input_interactive (depth : nat) : M (gmap string pyval) :=
  match depth with
  | O => fun _ => OutOfFuel
  | S depth' =>
      let* _ := print ([nl] ++ lit "=== QR Code Generator ===") in
      let* _ := print (lit "Choose an option:") in
      let* _ := print (lit "1. Generate Website QR Code") in
      let* _ := print (lit "2. Generate Contact QR Code") in
      let* _ := print (lit "3. Exit") in
      let* line := input ([nl] ++ lit "Enter your choice (1-3): ") in
      let choice := strip line in
      if str_eqb choice (lit "1") then
        let* line := input (lit "Enter website URL: ") in
        let url := strip line in
        ret (website_dict url)
      else if str_eqb choice (lit "2") then
        let* _ := print ([nl] ++ lit "--- Enter Your Contact Information ---") in
        let* line := input (lit "Full Name: ") in
        let name := strip line in
        let* line := input (lit "Phone Number: ") in
        let phone := strip line in
        let* line := input (lit "Email Address: ") in
        let email := strip line in
        let* line :=
          input (lit "Website URL (optional, press Enter to skip): ") in
        let url := strip line in
        ret (contact_dict name phone email
               (if nonempty url then Some url else None))
      else if str_eqb choice (lit "3") then
        let* _ := print (lit "Exiting...") in
        exit 0
      else
        let* _ := print (lit "Invalid choice. Please try again.") in
        get_user_input_interactive depth'
  end.

(** ** Argument dispatcher *)

(** The two values [--type] accepts. *)
Inductive flow := website | contact.

(** The parsed command line; an option not given is [None]. *)
Record args := {
  arg_type : option flow;
  arg_url : option str;
  arg_name : option str;
  arg_phone : option str;
  arg_email : option str;
  arg_website : option str;
  arg_output : option str }.

Section Main.
Context {lib : QRCodeLib}.

(** [main()], after [parser.parse_args()]; [depth] bounds the recursion of
    the interactive prompt. *)
Definition main (a : args) (depth : nat) : M unit :=
  match arg_type a with
  | Some website =>
      if negb (truthy (arg_url a)) then
        print (lit "Error: --url is required for website QR codes")
      else
        generate_qr_code (py_str (arg_url a)) (arg_output a)
  | Some contact =>
      if negb (truthy (arg_name a) && truthy (arg_phone a)
               && truthy (arg_email a)) then
        print (lit "Error: --name, --phone, and --email are required for contact QR codes")
      else
        let* contact_vcard :=
          vcard_call (py_str (arg_name a)) (py_str (arg_phone a))
            (py_str (arg_email a)) (arg_website a) in
        let output_path :=
          if truthy (arg_output a) then arg_output a
          else Some (lit "contact_qrcode.png") in
        generate_qr_code contact_vcard output_path
  | None =>
      let* user_data := get_user_input_interactive depth in
      let* ty := getitem user_data "type" in
      if bool_decide (ty = Some (lit "website")) then
        let* url := getitem user_data "url" in
        generate_qr_code (py_str url) (dict_get user_data "output")
      else if bool_decide (ty = Some (lit "contact")) then
        let* name := getitem user_data "name" in
        let* phone := getitem user_data "phone" in
        let* email := getitem user_data "email" in
        let* url := getitem user_data "url" in
        let* contact_vcard :=
          vcard_call (py_str name) (py_str phone) (py_str email) url in
        let output_path :=
          dict_get_default user_data "output"
            (Some (lit "contact_qrcode.png")) in
        generate_qr_code contact_vcard output_path
      else ret tt
  end.

End Main.

(** ** Vocabulary of the statements *)

(** The name the emitter gives a file when it is passed no path. *)
Definition timestamp_path (w : world) : str :=
  lit "qrcode_" ++ strftime (now w) ++ lit ".png".

(** The path the emitter writes at: the one it is passed, or the
    timestamp name. *)
Definition resolved_path (output_path : option str) (w : world) : str :=
  match output_path with
  | Some p => p
  | None => timestamp_path w
  end.

(** The notice printed after the image is written. *)
Definition saved_notice (path : str) : str :=
  lit "QR code saved to " ++ path ++ [nl].

(** The claim that the emitter is only ever run to completion with a path
    already resolved by its caller. *)
Definition emitter_requires_path {lib : QRCodeLib} : Prop :=
  forall (data : str) (output_path : option str) (w w' : world),
    generate_qr_code data output_path w = Ret tt w' ->
    exists p, output_path = Some p /\ p <> [].

(** The world once the menu and the prompt for a choice are on screen. *)
Definition show_menu (w : world) : world :=
  write ([nl] ++ lit "Enter your choice (1-3): ")
    (write (lit "3. Exit" ++ [nl])
       (write (lit "2. Generate Contact QR Code" ++ [nl])
          (write (lit "1. Generate Website QR Code" ++ [nl])
             (write (lit "Choose an option:" ++ [nl])
                (write (([nl] ++ lit "=== QR Code Generator ===") ++ [nl])
                   w))))).

(** The world after one rejected choice: menu shown, line taken, complaint
    printed. *)
Definition reprompt (w : world) : world :=
  write (lit "Invalid choice. Please try again." ++ [nl])
    (consume (show_menu w)).

(** The world after a prompt is shown and its answer taken. *)
Definition ask (prompt : str) (w : world) : world :=
  consume (write prompt w).

(** The world after choice 2 and the four answers of the contact form. *)
Definition contact_form (w : world) : world :=
  ask (lit "Website URL (optional, press Enter to skip): ")
    (ask (lit "Email Address: ")
       (ask (lit "Phone Number: ")
          (ask (lit "Full Name: ")
             (write (([nl] ++ lit "--- Enter Your Contact Information ---")
                     ++ [nl])
                (consume (show_menu w)))))).

(** A line that, stripped, is none of the three menu choices. *)
Definition invalid_choice (line : str) : Prop :=
  strip line <> lit "1" /\ strip line <> lit "2" /\ strip line <> lit "3".

(** Two worlds that differ at most in what was typed and shown. *)
Definition same_env (w w' : world) : Prop :=
  stdin w' = stdin w /\ now w' = now w /\ files w' = files w
  /\ writable w' = writable w /\ encoded w' = encoded w.

(** Every value a computation returns satisfies [Q]. *)
Definition returns {A} (m : M A) (Q : A -> Prop) : Prop :=
  forall w a w', m w = Ret a w' -> Q a.

(** However a computation ends, it leaves clock, files and encoder alone. *)
Definition keeps_env {A} (m : M A) : Prop :=
  forall w,
    match m w with
    | Ret _ w' | Exit _ w' | Raise _ w' => same_env w w'
    | OutOfFuel => True
    end.

(** What the resolver may return: a website dict, or a contact dict whose
    url is [None] or a non-empty string. *)
Definition resolver_result (d : gmap string pyval) : Prop :=
  (exists url, d = website_dict url)
  \/ (exists name phone email url,
        d = contact_dict name phone email url
        /\ (url = None \/ exists u, url = Some u /\ u <> [])).

(** A clock reading within the range of [datetime]. *)
Definition calendar (d : datetime) : Prop :=
  (1 <= year d <= 9999 /\ 1 <= month d <= 12 /\ 1 <= day d <= 31
   /\ hour d <= 23 /\ minute d <= 59 /\ second d <= 59)%N.

(** A computation that leaves the process only with status 0 and raises
    only at the end of the input. *)
Definition stops_well {A} (m : M A) : Prop :=
  forall w,
    match m w with
    | Exit c _ => c = 0%Z
    | Raise e _ => e = EOFError
    | Ret _ _ | OutOfFuel => True
    end.

(** The world a run ends in, however it ends. *)
Definition final_world {A} (o : outcome A) : option world :=
  match o with
  | Ret _ w | Exit _ w | Raise _ w => Some w
  | OutOfFuel => None
  end.

(** ** A concrete setting for the examples *)

Module Sample.

(** A stand-in for the encoder: it accepts payloads of up to 2953
    characters, the capacity of the largest symbol at level L, and returns
    them byte for byte. *)
Definition to_byte (c : char) : Byte.byte :=
  match Byte.of_N (c mod 256) with
  | Some b => b
  | None => Byte.x00
  end.

Definition lib : QRCodeLib :=
  {| make_image := fun _ data =>
       if (length data <=? 2953)%nat then Some (map to_byte data)
       else None |}.

(** A terminal session: the lines typed, an empty directory where every
    path can be written, and a clock reading 2026-11-04 09:05:07. *)
Definition session (lines : list str) : world :=
  {| stdin := fun i => lines !! i; stdin_pos := 0; stdout := [];
     now := {| year := 2026; month := 11; day := 4;
               hour := 9; minute := 5; second := 7 |};
     files := ∅; writable := fun _ => true; encoded := [] |}.

(** An unending input: the same line, again and again. *)
Definition endless (line : str) : world :=
  {| stdin := fun _ => Some line; stdin_pos := 0; stdout := [];
     now := now (session []); files := ∅; writable := fun _ => true;
     encoded := [] |}.

(** A command line with nothing on it. *)
Definition no_args : args :=
  {| arg_type := None; arg_url := None; arg_name := None;
     arg_phone := None; arg_email := None; arg_website := None;
     arg_output := None |}.

(** [--type website --url <url>]. *)
Definition website_args (url : str) : args :=
  {| arg_type := Some website; arg_url := Some url; arg_name := None;
     arg_phone := None; arg_email := None; arg_website := None;
     arg_output := None |}.

(** [--type contact] with the fields given; an omitted one is [None]. *)
Definition contact_args (name phone email : option str) : args :=
  {| arg_type := Some contact; arg_url := None; arg_name := name;
     arg_phone := phone; arg_email := email; arg_website := None;
     arg_output := None |}.

End Sample.

(** * Properties *)

(** ** Splitting and joining *)

Section SplitFacts.
Variable sep : char.

Lemma split_not_nil (s : str) : split sep s <> [].
Proof.
  induction s as [|c s IH]; simpl; [discriminate|].
  destruct (N.eqb c sep); [discriminate|].
  destruct (split sep s); discriminate.
Qed.

(** A separator in the text ends one line and starts the next. *)
Lemma split_app_sep (a b : str) :
  split sep (a ++ sep :: b) = split sep a ++ split sep b.
Proof.
  induction a as [|c a IH]; simpl.
  - now rewrite N.eqb_refl.
  - destruct (N.eqb c sep); [now rewrite IH|].
    rewrite IH. pose proof (split_not_nil a) as Hne.
    destruct (split sep a) as [|l ls]; [contradiction|reflexivity].
Qed.

(** A prefix free of separators stays on the first line. *)
Lemma split_prefix (l a : str) :
  sep ∉ l ->
  split sep (l ++ a) =
  match split sep a with x :: xs => (l ++ x) :: xs | [] => [l] end.
Proof.
  induction l as [|c l IH]; intros Hl; simpl.
  - pose proof (split_not_nil a). now destruct (split sep a).
  - apply not_elem_of_cons in Hl as [Hc Hl].
    destruct (N.eqb_spec c sep) as [->|_]; [contradiction|].
    rewrite (IH Hl). pose proof (split_not_nil a).
    now destruct (split sep a).
Qed.

Lemma split_no_sep (a : str) : sep ∉ a -> split sep a = [a].
Proof.
  intros Ha. rewrite <- (app_nil_r a) at 1.
  rewrite (split_prefix a [] Ha). simpl. now rewrite app_nil_r.
Qed.

(** Joining the lines gives the text back: splitting loses nothing. *)
Lemma join_split (s : str) : join sep (split sep s) = s.
Proof.
  induction s as [|c s IH]; [reflexivity|]. simpl.
  pose proof (split_not_nil s) as Hne.
  destruct (N.eqb_spec c sep) as [->|_].
  - destruct (split sep s) as [|l ls]; [contradiction|].
    simpl in *. now rewrite IH.
  - destruct (split sep s) as [|l ls]; [contradiction|].
    simpl in *. destruct ls; simpl in *; now rewrite <- IH.
Qed.

Lemma split_join (p : str) (ps : list str) :
  split sep (join sep (p :: ps)) = concat (map (split sep) (p :: ps)).
Proof.
  revert p. induction ps as [|q ps IH]; intros p.
  - simpl. now rewrite app_nil_r.
  - change (join sep (p :: q :: ps)) with (p ++ sep :: join sep (q :: ps)).
    rewrite split_app_sep, IH. reflexivity.
Qed.

End SplitFacts.

Lemma labelled_split (label s : str) :
  nl ∉ label -> split nl (label ++ s) = labelled label s.
Proof. intros H. unfold labelled. now apply split_prefix. Qed.

(** The label and the field, joined back, are the two texts end to end. *)
Lemma join_labelled (label s : str) :
  nl ∉ label -> join nl (labelled label s) = label ++ s.
Proof.
  intros H. rewrite <- (labelled_split label s H). apply join_split.
Qed.

(** Closed membership goals on literals are decided by evaluation. *)
Ltac decide_closed :=
  let H := fresh in
  intros H; apply list_elem_of_In in H; vm_compute in H;
  repeat (destruct H as [H|H]; [discriminate H|]); exact H.

Lemma nl_not_in_FN : nl ∉ lit "FN:".
Proof. decide_closed. Qed.

Lemma nl_not_in_TEL : nl ∉ lit "TEL:".
Proof. decide_closed. Qed.

Lemma nl_not_in_EMAIL : nl ∉ lit "EMAIL:".
Proof. decide_closed. Qed.

Lemma nl_not_in_URL : nl ∉ lit "URL:".
Proof. decide_closed. Qed.

(** The record is its fields, one per line. *)
Lemma vcard_is_joined_fields (name phone email : str) (url : option str) :
  generate_contact_vcard name phone email url =
  join nl (vcard_fields name phone email url).
Proof.
  unfold generate_contact_vcard, vcard_fields, url_field.
  destruct url as [[|c u]|]; cbn [join app nonempty];
    repeat (rewrite <- ?app_assoc; cbn [app]); reflexivity.
Qed.

(** The lines of the record, for any fields whatsoever. *)
Lemma vcard_lines (name phone email : str) (url : option str) :
  split nl (generate_contact_vcard name phone email url) =
  [lit "BEGIN:VCARD"; lit "VERSION:3.0"]
  ++ labelled (lit "FN:") name
  ++ labelled (lit "TEL:") phone
  ++ labelled (lit "EMAIL:") email
  ++ match url with
     | Some u => if nonempty u then labelled (lit "URL:") u else []
     | None => []
     end
  ++ [lit "END:VCARD"].
Proof.
  rewrite vcard_is_joined_fields. unfold vcard_fields.
  cbn [app]. rewrite split_join. cbn [map concat].
  rewrite (labelled_split _ name nl_not_in_FN),
          (labelled_split _ phone nl_not_in_TEL),
          (labelled_split _ email nl_not_in_EMAIL).
  change (split nl (lit "BEGIN:VCARD")) with [lit "BEGIN:VCARD"].
  change (split nl (lit "VERSION:3.0")) with [lit "VERSION:3.0"].
  cbn [app]. do 2 f_equal. do 3 f_equal.
  unfold url_field. destruct url as [u|]; [destruct (nonempty u)|];
    cbn [app map concat]; rewrite ?(labelled_split _ _ nl_not_in_URL);
    rewrite ?app_nil_r; reflexivity.
Qed.

Lemma startswith_app (p s : str) : startswith p (p ++ s) = true.
Proof.
  induction p as [|c p IH]; [reflexivity|].
  simpl. now rewrite N.eqb_refl.
Qed.

Lemma labelled_no_nl (label s : str) : nl ∉ s -> labelled label s = [label ++ s].
Proof. intros H. unfold labelled. now rewrite (split_no_sep nl s H). Qed.

Lemma labelled_URL_has_line (u : str) :
  existsb (startswith (lit "URL:")) (labelled (lit "URL:") u) = true.
Proof.
  unfold labelled. destruct (split nl u) as [|x xs]; cbn [existsb].
  - now rewrite <- (app_nil_r (lit "URL:")) at 2; rewrite startswith_app.
  - now rewrite startswith_app.
Qed.

(** ** Record formatter *)

(** C1: for every name, phone, email and optional url the record is exactly
    the lines BEGIN:VCARD, VERSION:3.0, FN:name, TEL:phone, EMAIL:email, a
    URL:url line only when a url is supplied, and END:VCARD, joined by line
    feeds; its first line is BEGIN:VCARD and its last line is END:VCARD. *)
Theorem vcard_fixed_schema (name phone email : str) (url : option str) :
  let out := generate_contact_vcard name phone email url in
  out = join nl ([lit "BEGIN:VCARD"; lit "VERSION:3.0"; lit "FN:" ++ name;
                  lit "TEL:" ++ phone; lit "EMAIL:" ++ email]
                 ++ url_field url ++ [lit "END:VCARD"])
  /\ (url_field url = []
      \/ exists u, url = Some u /\ url_field url = [lit "URL:" ++ u])
  /\ head (split nl out) = Some (lit "BEGIN:VCARD")
  /\ last (split nl out) = Some (lit "END:VCARD").
Proof.
  cbv zeta. split; [apply vcard_is_joined_fields|]. split.
  - unfold url_field. destruct url as [u|]; [|now left].
    destruct (nonempty u); [right; now exists u|now left].
  - rewrite vcard_lines. split; [reflexivity|].
    rewrite !app_assoc. apply last_snoc.
Qed.

(** C4, as the specification words it, fails: a field that carries a line
    feed followed by URL: makes such a line although no url was passed. *)
Lemma url_line_without_url : ~ url_line_iff_url_supplied.
Proof.
  intros H.
  specialize (H (lit "x" ++ [nl] ++ lit "URL:y") (lit "1") (lit "e") None).
  destruct H as [H _]. specialize (H eq_refl). discriminate H.
Qed.

(** C4, amended: a non-empty url always yields a line starting with URL:,
    and when name, phone and email hold no line feed, a line starting with
    URL: is present only if a non-empty url was supplied. *)
Theorem url_line_iff_url_supplied_single_line
    (name phone email : str) (url : option str) :
  let out := generate_contact_vcard name phone email url in
  (truthy url = true -> has_url_line out = true)
  /\ (nl ∉ name -> nl ∉ phone -> nl ∉ email ->
      (has_url_line out = true <-> truthy url = true)).
Proof.
  cbv zeta. unfold has_url_line. rewrite vcard_lines.
  assert (Hurl : truthy url = true ->
    existsb (startswith (lit "URL:"))
      ([lit "BEGIN:VCARD"; lit "VERSION:3.0"] ++ labelled (lit "FN:") name ++
       labelled (lit "TEL:") phone ++ labelled (lit "EMAIL:") email ++
       match url with
       | Some u => if nonempty u then labelled (lit "URL:") u else []
       | None => []
       end ++ [lit "END:VCARD"]) = true).
  { intros Hu. destruct url as [u|]; [|discriminate Hu].
    simpl in Hu. rewrite Hu.
    rewrite !existsb_app, labelled_URL_has_line.
    now rewrite !orb_true_r. }
  split; [exact Hurl|]. intros Hn Hp He. split; [|exact Hurl].
  rewrite (labelled_no_nl _ name Hn), (labelled_no_nl _ phone Hp),
          (labelled_no_nl _ email He).
  destruct url as [u|]; [destruct u as [|c u]|]; cbn [truthy nonempty];
    trivial; intros H; vm_compute in H; discriminate H.
Qed.

(** An instance of C4 amended: a contact without line feeds and without url. *)
Lemma url_line_iff_url_supplied_single_line_witness :
  has_url_line (generate_contact_vcard (lit "Jane Doe") (lit "555-5678")
                  (lit "jane@example.com") None) = true
  <-> truthy None = true.
Proof.
  apply (url_line_iff_url_supplied_single_line (lit "Jane Doe")
           (lit "555-5678") (lit "jane@example.com") None);
    decide_closed.
Defined.

(** C5: for every name, phone and email the record holds the three inputs
    verbatim, each right after its label and up to the next label; the lines
    of the record are the lines of the inputs, unchanged, so that colons and
    line feeds pass through and nothing is escaped, normalised or folded. *)
Theorem vcard_fields_verbatim (name phone email : str) (url : option str) :
  let out := generate_contact_vcard name phone email url in
  (exists rest,
     out = lit "BEGIN:VCARD" ++ [nl] ++ lit "VERSION:3.0" ++ [nl] ++
           lit "FN:" ++ name ++ [nl] ++
           lit "TEL:" ++ phone ++ [nl] ++
           lit "EMAIL:" ++ email ++ [nl] ++ rest)
  /\ (exists rest,
        split nl out =
        [lit "BEGIN:VCARD"; lit "VERSION:3.0"]
        ++ labelled (lit "FN:") name
        ++ labelled (lit "TEL:") phone
        ++ labelled (lit "EMAIL:") email ++ rest)
  /\ join nl (labelled (lit "FN:") name) = lit "FN:" ++ name
  /\ join nl (labelled (lit "TEL:") phone) = lit "TEL:" ++ phone
  /\ join nl (labelled (lit "EMAIL:") email) = lit "EMAIL:" ++ email
  /\ length out =
     length (generate_contact_vcard [] [] [] url)
     + length name + length phone + length email.
Proof.
  cbv zeta. repeat split.
  - unfold generate_contact_vcard.
    destruct url as [[|c u]|]; cbn [nonempty]; eexists;
      repeat (rewrite <- ?app_assoc; cbn [app]); reflexivity.
  - rewrite vcard_lines. eexists. reflexivity.
  - apply join_labelled, nl_not_in_FN.
  - apply join_labelled, nl_not_in_TEL.
  - apply join_labelled, nl_not_in_EMAIL.
  - unfold generate_contact_vcard.
    destruct url as [[|c u]|]; cbn [nonempty];
      rewrite ?length_app; cbn [length]; lia.
Qed.

(** C8: the formatter is pure and deterministic: called twice on the same
    arguments, in whatever two worlds, it returns the same string and leaves
    each world as it found it. *)
Theorem vcard_pure_deterministic
    (name phone email : str) (url : option str) (w1 w2 : world) :
  exists s : str,
    vcard_call name phone email url w1 = Ret s w1
    /\ vcard_call name phone email url w2 = Ret s w2
    /\ s = generate_contact_vcard name phone email url.
Proof.
  exists (generate_contact_vcard name phone email url).
  repeat split.
Qed.

(** ** Image emitter *)

Section EmitterFacts.
Context {lib : QRCodeLib}.

(** Every run of the emitter, in one equation. *)
Lemma generate_qr_code_run (data : str) (output_path : option str)
    (w : world) :
  generate_qr_code data output_path w =
  let path := resolved_path output_path w in
  match make_image qr_settings data with
  | None => Raise DataOverflowError (submit data w)
  | Some img =>
      if writable w path
      then Ret tt (write (saved_notice path) (store path img (submit data w)))
      else Raise OSError (submit data w)
  end.
Proof.
  unfold generate_qr_code, bind, qr_image, save, print, saved_notice.
  destruct output_path as [p|]; cbn [resolved_path datetime_now ret];
    fold (timestamp_path w);
    destruct (make_image qr_settings data) as [img|]; try reflexivity;
    cbn [writable submit];
    match goal with |- context [writable w ?q] =>
      destruct (writable w q) end;
    rewrite <- ?app_assoc; reflexivity.
Qed.

(** A run that the encoder and the file system both let through. *)
Lemma generate_qr_code_ok (data : str) (output_path : option str)
    (img : bytes) (w : world) :
  make_image qr_settings data = Some img ->
  writable w (resolved_path output_path w) = true ->
  generate_qr_code data output_path w =
  Ret tt (write (saved_notice (resolved_path output_path w))
            (store (resolved_path output_path w) img (submit data w))).
Proof.
  intros Himg Hw. rewrite generate_qr_code_run. cbv zeta.
  now rewrite Himg, Hw.
Qed.

End EmitterFacts.

(** C3, as the specification words it, fails: the emitter runs to completion
    without a path, naming the file itself. *)
Lemma emitter_runs_without_path : ~ @emitter_requires_path Sample.lib.
Proof.
  intros H.
  edestruct (H (lit "https://example.com") None (Sample.session []))
    as [p [Hp _]]; [|discriminate Hp].
  rewrite generate_qr_code_run. vm_compute. reflexivity.
Qed.

(** C3, amended: the output path of the emitter is optional.  Passed a
    payload the encoder accepts and a path, it writes the encoded image at
    exactly that path, creating or overwriting that one file, and prints the
    notice; passed no path, it does the same at the name
    qrcode_<YYYYMMDD_HHMMSS>.png that it resolves itself from the clock. *)
Theorem emitter_writes_at_resolved_path {lib : QRCodeLib}
    (data : str) (output_path : option str) (img : bytes) (w : world) :
  make_image qr_settings data = Some img ->
  writable w (resolved_path output_path w) = true ->
  exists w',
    generate_qr_code data output_path w = Ret tt w'
    /\ files w' = <[resolved_path output_path w := img]> (files w)
    /\ stdout w' = stdout w ++ [saved_notice (resolved_path output_path w)]
    /\ encoded w' = encoded w ++ [data]
    /\ (forall p, output_path = Some p -> resolved_path output_path w = p)
    /\ (output_path = None ->
        resolved_path output_path w =
        lit "qrcode_" ++ strftime (now w) ++ lit ".png").
Proof.
  intros Himg Hw. rewrite (generate_qr_code_ok _ _ img w Himg Hw).
  eexists. split; [reflexivity|].
  repeat split.
  - now intros p ->.
  - now intros ->.
Qed.

(** An instance of C3 amended: a given path, and no path at all. *)
Lemma emitter_writes_at_resolved_path_witness :
  (exists w',
     @generate_qr_code Sample.lib (lit "https://example.com")
       (Some (lit "test_qrcode.png")) (Sample.session []) = Ret tt w'
     /\ files w' !! lit "test_qrcode.png"
        = Some (map Sample.to_byte (lit "https://example.com")))
  /\ (exists w',
        @generate_qr_code Sample.lib (lit "https://example.com") None
          (Sample.session []) = Ret tt w'
        /\ files w' !! lit "qrcode_20261104_090507.png"
           = Some (map Sample.to_byte (lit "https://example.com"))).
Proof.
  split.
  - destruct (@emitter_writes_at_resolved_path Sample.lib
                (lit "https://example.com") (Some (lit "test_qrcode.png"))
                (map Sample.to_byte (lit "https://example.com"))
                (Sample.session []) eq_refl eq_refl)
      as (w' & Hrun & Hfiles & _).
    exists w'. split; [exact Hrun|]. rewrite Hfiles. apply lookup_insert_eq.
  - destruct (@emitter_writes_at_resolved_path Sample.lib
                (lit "https://example.com") None
                (map Sample.to_byte (lit "https://example.com"))
                (Sample.session []) eq_refl eq_refl)
      as (w' & Hrun & Hfiles & _).
    exists w'. split; [exact Hrun|]. rewrite Hfiles.
    change (resolved_path None (Sample.session []))
      with (lit "qrcode_20261104_090507.png").
    apply lookup_insert_eq.
Defined.

(** ** Input resolver *)

Lemma same_env_refl (w : world) : same_env w w.
Proof. repeat split. Qed.

Lemma same_env_trans (w1 w2 w3 : world) :
  same_env w1 w2 -> same_env w2 w3 -> same_env w1 w3.
Proof.
  unfold same_env. intros (A1 & A2 & A3 & A4 & A5) (B1 & B2 & B3 & B4 & B5).
  repeat split; congruence.
Qed.

Lemma same_env_write (s : str) (w : world) : same_env w (write s w).
Proof. repeat split. Qed.

Lemma same_env_consume (w : world) : same_env w (consume w).
Proof. repeat split. Qed.

Lemma keeps_env_ret {A} (a : A) : keeps_env (ret a).
Proof. intros w. apply same_env_refl. Qed.

Lemma keeps_env_exit {A} (c : Z) : keeps_env (@exit A c).
Proof. intros w. apply same_env_refl. Qed.

Lemma keeps_env_print (s : str) : keeps_env (print s).
Proof. intros w. apply same_env_write. Qed.

Lemma keeps_env_input (prompt : str) : keeps_env (input prompt).
Proof.
  intros w. unfold input. destruct (stdin w (stdin_pos w)).
  - eapply same_env_trans; [apply same_env_write|apply same_env_consume].
  - apply same_env_write.
Qed.

Lemma keeps_env_bind {A B} (m : M A) (k : A -> M B) :
  keeps_env m -> (forall a, keeps_env (k a)) -> keeps_env (bind m k).
Proof.
  intros Hm Hk w. unfold bind. specialize (Hm w).
  destruct (m w) as [a w1|c w1|e w1|]; trivial.
  specialize (Hk a w1).
  destruct (k a w1); trivial; eapply same_env_trans; eassumption.
Qed.

Lemma returns_bind {A B} (m : M A) (k : A -> M B) (Q : B -> Prop) :
  (forall a, returns (k a) Q) -> returns (bind m k) Q.
Proof.
  intros Hk w b w'. unfold bind.
  destruct (m w) as [a w1|c w1|e w1|]; try discriminate.
  apply Hk.
Qed.

Lemma returns_ret {A} (a : A) (Q : A -> Prop) : Q a -> returns (ret a) Q.
Proof. intros Ha w b w' [= <- _]. exact Ha. Qed.

Lemma returns_exit {A} (c : Z) (Q : A -> Prop) : returns (exit c) Q.
Proof. intros w b w'. discriminate. Qed.

Create HintDb resolver.
#[local] Hint Resolve keeps_env_ret keeps_env_exit keeps_env_print
  keeps_env_input : resolver.

(** The prompts touch neither the clock, nor the files, nor the encoder. *)
Lemma resolver_keeps_env (depth : nat) :
  keeps_env (get_user_input_interactive depth).
Proof.
  induction depth as [|d IH]; [intros w; exact I|].
  cbn [get_user_input_interactive].
  repeat (apply keeps_env_bind; [auto with resolver|intros ?]).
  repeat match goal with
         | |- keeps_env (if ?b then _ else _) => destruct b
         | |- keeps_env (bind _ _) =>
             apply keeps_env_bind; [auto with resolver|intros ?]
         end; auto with resolver.
Qed.

(** Whatever the resolver returns is a website or a contact dict. *)
Lemma resolver_returns_result (depth : nat) :
  returns (get_user_input_interactive depth) resolver_result.
Proof.
  induction depth as [|d IH]; [intros w a w'; discriminate|].
  cbn [get_user_input_interactive].
  repeat (apply returns_bind; intros ?).
  repeat match goal with
         | |- returns (if ?b then _ else _) _ => destruct b
         | |- returns (bind _ _) _ => apply returns_bind; intros ?
         end; try apply returns_exit; try exact IH.
  - apply returns_ret. left. eexists. reflexivity.
  - apply returns_ret. right. do 4 eexists. split; [reflexivity|].
    match goal with |- context [nonempty ?s] => destruct s as [|c0 s0] end;
      cbn [nonempty]; [now left|right; eexists; split; [reflexivity|]].
    discriminate.
Qed.

Lemma choices_distinct :
  lit "2" <> lit "1" /\ lit "3" <> lit "1" /\ lit "3" <> lit "2".
Proof. repeat split; intros H; vm_compute in H; discriminate H. Qed.

(** Unfolds one round of the prompt down to the test on the choice. *)
Ltac resolver_round H :=
  cbn [get_user_input_interactive]; unfold bind, print, input;
  cbn [stdin stdin_pos write consume]; rewrite H; unfold str_eqb.

(** Settles the tests on a choice that is known. *)
Ltac resolver_choice Hc :=
  rewrite Hc;
  rewrite ?(bool_decide_eq_false_2 _ (proj1 choices_distinct)),
          ?(bool_decide_eq_false_2 _ (proj1 (proj2 choices_distinct))),
          ?(bool_decide_eq_false_2 _ (proj2 (proj2 choices_distinct))),
          ?(bool_decide_eq_true_2 _ eq_refl);
  cbv iota; cbn [stdin stdin_pos write consume].

(** A rejected choice costs one level of recursion and one line. *)
Lemma resolver_invalid (depth : nat) (w : world) (line : str) :
  stdin w (stdin_pos w) = Some line ->
  invalid_choice line ->
  get_user_input_interactive (S depth) w =
  get_user_input_interactive depth (reprompt w).
Proof.
  intros Hin (H1 & H2 & H3). resolver_round Hin.
  rewrite !bool_decide_eq_false_2 by assumption. reflexivity.
Qed.

(** Choice 1, then the url. *)
Lemma resolver_website (depth : nat) (w : world) (line url : str) :
  stdin w (stdin_pos w) = Some line ->
  strip line = lit "1" ->
  stdin w (S (stdin_pos w)) = Some url ->
  get_user_input_interactive (S depth) w =
  Ret (website_dict (strip url))
      (consume (write (lit "Enter website URL: ") (consume (show_menu w)))).
Proof.
  intros Hin Hc Hurl. resolver_round Hin. resolver_choice Hc.
  rewrite Hurl. reflexivity.
Qed.

(** Choice 2, then name, phone, email and the optional url. *)
Lemma resolver_contact (depth : nat) (w : world)
    (line name phone email url : str) :
  stdin w (stdin_pos w) = Some line ->
  strip line = lit "2" ->
  stdin w (1 + stdin_pos w) = Some name ->
  stdin w (2 + stdin_pos w) = Some phone ->
  stdin w (3 + stdin_pos w) = Some email ->
  stdin w (4 + stdin_pos w) = Some url ->
  get_user_input_interactive (S depth) w =
  Ret (contact_dict (strip name) (strip phone) (strip email)
         (if nonempty (strip url) then Some (strip url) else None))
      (contact_form w).
Proof.
  intros Hin Hc Hn Hp He Hu. resolver_round Hin.
  resolver_choice Hc.
  cbn [Nat.add] in *.
  rewrite Hn; cbn [stdin stdin_pos write consume].
  rewrite Hp; cbn [stdin stdin_pos write consume].
  rewrite He; cbn [stdin stdin_pos write consume].
  rewrite Hu; cbn [stdin stdin_pos write consume].
  reflexivity.
Qed.

(** Choice 3 leaves the process; nothing is returned. *)
Lemma resolver_exit (depth : nat) (w : world) (line : str) :
  stdin w (stdin_pos w) = Some line ->
  strip line = lit "3" ->
  get_user_input_interactive (S depth) w =
  Exit 0 (write (lit "Exiting..." ++ [nl]) (consume (show_menu w))).
Proof.
  intros Hin Hc. resolver_round Hin. resolver_choice Hc.
  reflexivity.
Qed.

Lemma reprompt_stdin (n : nat) (w : world) :
  stdin (Nat.iter n reprompt w) = stdin w
  /\ stdin_pos (Nat.iter n reprompt w) = n + stdin_pos w.
Proof.
  induction n as [|n [IH1 IH2]]; [now split|].
  rewrite Nat.iter_succ. split; [exact IH1|].
  change (S (stdin_pos (Nat.iter n reprompt w)) = S n + stdin_pos w).
  now rewrite IH2.
Qed.

(** [n] rejected choices in a row cost [n] levels and [n] lines. *)
Lemma resolver_invalid_run (n depth : nat) (w : world) :
  (forall i, i < n ->
     exists line, stdin w (i + stdin_pos w) = Some line
                  /\ invalid_choice line) ->
  get_user_input_interactive (n + depth) w =
  get_user_input_interactive depth (Nat.iter n reprompt w).
Proof.
  revert w. induction n as [|n IH]; intros w Hinv; [reflexivity|].
  destruct (Hinv 0 ltac:(lia)) as (line & Hline & Hbad).
  cbn [Nat.add]. rewrite (resolver_invalid _ w line Hline Hbad).
  rewrite IH.
  - now rewrite <- Nat.iter_succ_r.
  - intros i Hi. destruct (Hinv (S i) ltac:(lia)) as (l & Hl & Hb).
    exists l. split; [|exact Hb].
    change (stdin w (i + S (stdin_pos w)) = Some l).
    now rewrite Nat.add_succ_r.
Qed.

(** End of input at the menu: [input] raises. *)
Lemma resolver_eof (depth : nat) (w : world) :
  stdin w (stdin_pos w) = None ->
  get_user_input_interactive (S depth) w = Raise EOFError (show_menu w).
Proof. intros Hin. resolver_round Hin. reflexivity. Qed.

(** The choice that ends the prompt with a value is 1 or 2: some number of
    rejected lines, then one of these two. *)
Lemma resolver_return_choice (depth : nat) :
  forall (w : world) (d : gmap string pyval) (w' : world),
    get_user_input_interactive depth w = Ret d w' ->
    exists n line,
      n < depth
      /\ (forall i, i < n ->
            exists l, stdin w (i + stdin_pos w) = Some l /\ invalid_choice l)
      /\ stdin w (n + stdin_pos w) = Some line
      /\ (strip line = lit "1" \/ strip line = lit "2").
Proof.
  induction depth as [|depth IH]; intros w d w' Hret; [discriminate Hret|].
  destruct (stdin w (stdin_pos w)) as [line|] eqn:Hin;
    [|rewrite (resolver_eof _ _ Hin) in Hret; discriminate Hret].
  destruct (decide (strip line = lit "1")) as [H1|H1];
    [exists 0, line; repeat split; [lia|intros; lia|assumption|now left]|].
  destruct (decide (strip line = lit "2")) as [H2|H2];
    [exists 0, line; repeat split; [lia|intros; lia|assumption|now right]|].
  destruct (decide (strip line = lit "3")) as [H3|H3];
    [rewrite (resolver_exit _ _ _ Hin H3) in Hret; discriminate Hret|].
  rewrite (resolver_invalid _ _ _ Hin (conj H1 (conj H2 H3))) in Hret.
  destruct (IH _ _ _ Hret) as (n & l & Hn & Hbad & Hl & Hc).
  change (stdin (reprompt w)) with (stdin w) in *.
  change (stdin_pos (reprompt w)) with (S (stdin_pos w)) in *.
  exists (S n), l. repeat split; [lia| |now rewrite Nat.add_succ_r in Hl|exact Hc].
  intros [|i] Hi; [exists line; now repeat split|].
  destruct (Hbad i ltac:(lia)) as (l' & Hl' & Hb').
  exists l'. split; [now rewrite Nat.add_succ_r in Hl'|exact Hb'].
Qed.

(** C7: an input outside 1, 2, 3 makes the resolver ask again: after any
    [n] such lines, a valid choice gives the result of that choice, as if it
    had been the first line.  Each rejected line costs one level of
    recursion, so [n] of them need a depth above [n], and on an unending
    stream of invalid lines no depth is enough: the call never ends. *)
Theorem reprompt_until_valid_choice (n : nat) (w : world) :
  ((forall i, i < n ->
      exists line, stdin w (i + stdin_pos w) = Some line
                   /\ invalid_choice line) ->
   (forall depth,
      get_user_input_interactive (n + depth) w =
      get_user_input_interactive depth (Nat.iter n reprompt w))
   /\ (forall line url depth,
         stdin w (n + stdin_pos w) = Some line -> strip line = lit "1" ->
         stdin w (S (n + stdin_pos w)) = Some url ->
         exists w',
           get_user_input_interactive (n + S depth) w =
           Ret (website_dict (strip url)) w')
   /\ (forall line name phone email url depth,
         stdin w (n + stdin_pos w) = Some line -> strip line = lit "2" ->
         stdin w (1 + (n + stdin_pos w)) = Some name ->
         stdin w (2 + (n + stdin_pos w)) = Some phone ->
         stdin w (3 + (n + stdin_pos w)) = Some email ->
         stdin w (4 + (n + stdin_pos w)) = Some url ->
         exists w',
           get_user_input_interactive (n + S depth) w =
           Ret (contact_dict (strip name) (strip phone) (strip email)
                  (if nonempty (strip url) then Some (strip url) else None))
               w')
   /\ (forall line depth,
         stdin w (n + stdin_pos w) = Some line -> strip line = lit "3" ->
         exists w', get_user_input_interactive (n + S depth) w = Exit 0 w')
   /\ get_user_input_interactive n w = OutOfFuel)
  /\ ((forall i, exists line, stdin w (i + stdin_pos w) = Some line
                              /\ invalid_choice line) ->
      forall depth, get_user_input_interactive depth w = OutOfFuel).
Proof.
  split.
  - intros Hbad. pose proof (reprompt_stdin n w) as [Hs Hp].
    split; [intros depth; now apply resolver_invalid_run|].
    repeat split.
    + intros line url depth Hl Hc Hu.
      rewrite (resolver_invalid_run n _ w Hbad). eexists.
      apply (resolver_website _ _ line url); rewrite ?Hs, ?Hp; assumption.
    + intros line name phone email url depth Hl Hc Hn Hph He Hu.
      rewrite (resolver_invalid_run n _ w Hbad). eexists.
      apply (resolver_contact _ _ line name phone email url);
        rewrite ?Hs, ?Hp; assumption.
    + intros line depth Hl Hc.
      rewrite (resolver_invalid_run n _ w Hbad). eexists.
      apply (resolver_exit _ _ line); rewrite ?Hs, ?Hp; assumption.
    + rewrite <- (Nat.add_0_r n) at 1.
      now rewrite (resolver_invalid_run n 0 w Hbad).
  - intros Hbad depth. rewrite <- (Nat.add_0_r depth).
    rewrite (resolver_invalid_run depth 0 w); [reflexivity|].
    intros i _. apply Hbad.
Qed.

(** Settles that a given line is no menu choice. *)
Ltac reject_line :=
  let H := fresh in
  repeat split; intros H; vm_compute in H; discriminate H.

(** An instance of C7: two rejected lines, then choice 1 with its url; and a
    terminal that answers x for ever. *)
Lemma reprompt_until_valid_choice_witness :
  (exists w',
     get_user_input_interactive 3
       (Sample.session [lit "x"; lit "7"; lit " 1 ";
                        lit " https://example.com "])
     = Ret (website_dict (lit "https://example.com")) w')
  /\ get_user_input_interactive 2
       (Sample.session [lit "x"; lit "7"; lit " 1 ";
                        lit " https://example.com "])
     = OutOfFuel
  /\ (forall depth,
        get_user_input_interactive depth (Sample.endless (lit "x"))
        = OutOfFuel).
Proof.
  destruct (proj1 (reprompt_until_valid_choice 2
                     (Sample.session [lit "x"; lit "7"; lit " 1 ";
                                      lit " https://example.com "])))
    as (_ & Hweb & _ & _ & Hfuel).
  { intros [|[|i]] Hi; [| |lia].
    - exists (lit "x"). split; [reflexivity|reject_line].
    - exists (lit "7"). split; [reflexivity|reject_line]. }
  split; [|split; [exact Hfuel|]].
  - apply (Hweb (lit " 1 ") (lit " https://example.com ") 0); reflexivity.
  - apply (proj2 (reprompt_until_valid_choice 0 (Sample.endless (lit "x")))).
    intros i. exists (lit "x"). split; [reflexivity|reject_line].
Defined.

(** C10: whenever the resolver returns, the value is a dict whose type is
    website or contact; the choice that ended the prompt was 1 or 2, never
    the exit choice 3; and in a contact dict the url is None or a non-empty
    string, an empty answer having been turned into None. *)
Theorem resolver_returns_typed_dict
    (depth : nat) (w w' : world) (d : gmap string pyval) :
  get_user_input_interactive depth w = Ret d w' ->
  (d !! "type" = Some (Some (lit "website"))
   \/ d !! "type" = Some (Some (lit "contact")))
  /\ (d !! "type" = Some (Some (lit "contact")) ->
      d !! "url" = Some None
      \/ exists u, d !! "url" = Some (Some u) /\ u <> [])
  /\ (exists n line,
        (forall i, i < n ->
           exists l, stdin w (i + stdin_pos w) = Some l /\ invalid_choice l)
        /\ stdin w (n + stdin_pos w) = Some line
        /\ strip line <> lit "3"
        /\ (strip line = lit "1" \/ strip line = lit "2")).
Proof.
  intros Hret. pose proof (resolver_returns_result depth w d w' Hret) as Hd.
  split; [|split].
  - destruct Hd as [(url & ->)|(name & phone & email & url & -> & _)];
      [left|right]; reflexivity.
  - destruct Hd as [(url & ->)|(name & phone & email & url & -> & Hurl)].
    + intros H. vm_compute in H. discriminate H.
    + intros _. destruct Hurl as [->|(u & -> & Hu)]; [now left|].
      right. exists u. split; [reflexivity|exact Hu].
  - destruct (resolver_return_choice depth w d w' Hret)
      as (n & line & _ & Hbad & Hline & Hc).
    exists n, line. repeat split; try assumption.
    destruct choices_distinct as (_ & H31 & H32).
    destruct Hc as [Hc|Hc]; rewrite Hc; intros E; symmetry in E; contradiction.
Qed.

(** An instance of C10: a contact entered with an empty url. *)
Lemma resolver_returns_typed_dict_witness :
  contact_dict (lit "Jane Doe") (lit "555-5678") (lit "jane@example.com") None
    !! "url" = Some None
  \/ exists u,
       contact_dict (lit "Jane Doe") (lit "555-5678")
         (lit "jane@example.com") None !! "url" = Some (Some u)
       /\ u <> [].
Proof.
  pose proof (resolver_contact 0
                (Sample.session [lit "2"; lit "Jane Doe"; lit "555-5678";
                                 lit "jane@example.com"; lit ""])
                (lit "2") (lit "Jane Doe") (lit "555-5678")
                (lit "jane@example.com") (lit "")
                eq_refl eq_refl eq_refl eq_refl eq_refl eq_refl) as Hrun.
  exact (proj1 (proj2 (resolver_returns_typed_dict 1 _ _ _ Hrun)) eq_refl).
Defined.

(** ** Argument dispatcher *)

Lemma website_dict_lookup (url : str) :
  website_dict url !! "type" = Some (Some (lit "website"))
  /\ website_dict url !! "url" = Some (Some url)
  /\ website_dict url !! "output" = None.
Proof. repeat split. Qed.

Lemma contact_dict_lookup (name phone email : str) (url : pyval) :
  contact_dict name phone email url !! "type" = Some (Some (lit "contact"))
  /\ contact_dict name phone email url !! "name" = Some (Some name)
  /\ contact_dict name phone email url !! "phone" = Some (Some phone)
  /\ contact_dict name phone email url !! "email" = Some (Some email)
  /\ contact_dict name phone email url !! "url" = Some url
  /\ contact_dict name phone email url !! "output" = None.
Proof. repeat split. Qed.

Section MainFacts.
Context {lib : QRCodeLib}.

(** Website flow from the command line, url given. *)
Lemma main_cli_website (a : args) (depth : nat) (w : world) :
  arg_type a = Some website ->
  truthy (arg_url a) = true ->
  main a depth w = generate_qr_code (py_str (arg_url a)) (arg_output a) w.
Proof. intros Ht Hu. unfold main. now rewrite Ht, Hu. Qed.

(** Contact flow from the command line, the three fields given. *)
Lemma main_cli_contact (a : args) (depth : nat) (w : world) :
  arg_type a = Some contact ->
  truthy (arg_name a) = true ->
  truthy (arg_phone a) = true ->
  truthy (arg_email a) = true ->
  main a depth w =
  generate_qr_code
    (generate_contact_vcard (py_str (arg_name a)) (py_str (arg_phone a))
       (py_str (arg_email a)) (arg_website a))
    (if truthy (arg_output a) then arg_output a
     else Some (lit "contact_qrcode.png")) w.
Proof. intros Ht Hn Hp He. unfold main. now rewrite Ht, Hn, Hp, He. Qed.

(** A required field missing on the command line: one message, no more. *)
Lemma main_cli_missing (a : args) (depth : nat) (w : world) :
  (arg_type a = Some website /\ truthy (arg_url a) = false
   -> main a depth w =
      Ret tt (write (lit "Error: --url is required for website QR codes"
                     ++ [nl]) w))
  /\ (arg_type a = Some contact
      /\ (truthy (arg_name a) && truthy (arg_phone a)
          && truthy (arg_email a) = false)
      -> main a depth w =
         Ret tt (write (lit "Error: --name, --phone, and --email are required for contact QR codes"
                        ++ [nl]) w)).
Proof.
  split; intros [Ht Hm]; unfold main; now rewrite Ht, Hm.
Qed.

(** Interactive mode, website chosen. *)
Lemma main_interactive_website (a : args) (depth : nat) (w w1 : world)
    (url : str) :
  arg_type a = None ->
  get_user_input_interactive depth w = Ret (website_dict url) w1 ->
  main a depth w = generate_qr_code url None w1.
Proof.
  intros Ht Hret. unfold main. rewrite Ht. unfold bind at 1. rewrite Hret.
  reflexivity.
Qed.

(** Interactive mode, contact chosen. *)
Lemma main_interactive_contact (a : args) (depth : nat) (w w1 : world)
    (name phone email : str) (url : pyval) :
  arg_type a = None ->
  get_user_input_interactive depth w =
  Ret (contact_dict name phone email url) w1 ->
  main a depth w =
  generate_qr_code (generate_contact_vcard name phone email url)
    (Some (lit "contact_qrcode.png")) w1.
Proof.
  intros Ht Hret. unfold main. rewrite Ht. unfold bind at 1. rewrite Hret.
  reflexivity.
Qed.

End MainFacts.

(** C6: when no --output is given, the image is written at
    contact_qrcode.png in the contact flow and at the timestamp name
    qrcode_<YYYYMMDD_HHMMSS>.png in the website flow, from the command line
    and from the prompts alike. *)
Theorem default_output_paths {lib : QRCodeLib}
    (a : args) (depth : nat) (w : world) (img : bytes) :
  arg_output a = None ->
  (arg_type a = Some website ->
   truthy (arg_url a) = true ->
   make_image qr_settings (py_str (arg_url a)) = Some img ->
   writable w (timestamp_path w) = true ->
   exists w',
     main a depth w = Ret tt w'
     /\ files w' = <[timestamp_path w := img]> (files w))
  /\ (arg_type a = Some contact ->
      truthy (arg_name a) = true -> truthy (arg_phone a) = true ->
      truthy (arg_email a) = true ->
      make_image qr_settings
        (generate_contact_vcard (py_str (arg_name a)) (py_str (arg_phone a))
           (py_str (arg_email a)) (arg_website a)) = Some img ->
      writable w (lit "contact_qrcode.png") = true ->
      exists w',
        main a depth w = Ret tt w'
        /\ files w' = <[lit "contact_qrcode.png" := img]> (files w))
  /\ (arg_type a = None ->
      forall (url : str) (w1 : world),
        get_user_input_interactive depth w = Ret (website_dict url) w1 ->
        make_image qr_settings url = Some img ->
        writable w1 (timestamp_path w1) = true ->
        exists w',
          main a depth w = Ret tt w'
          /\ files w' = <[timestamp_path w1 := img]> (files w))
  /\ (arg_type a = None ->
      forall (name phone email : str) (url : pyval) (w1 : world),
        get_user_input_interactive depth w =
        Ret (contact_dict name phone email url) w1 ->
        make_image qr_settings (generate_contact_vcard name phone email url)
        = Some img ->
        writable w1 (lit "contact_qrcode.png") = true ->
        exists w',
          main a depth w = Ret tt w'
          /\ files w' = <[lit "contact_qrcode.png" := img]> (files w))
  /\ (forall w0 : world,
        timestamp_path w0 =
        lit "qrcode_"
        ++ (pad4 (year (now w0)) ++ pad2 (month (now w0))
            ++ pad2 (day (now w0)) ++ lit "_" ++ pad2 (hour (now w0))
            ++ pad2 (minute (now w0)) ++ pad2 (second (now w0)))
        ++ lit ".png")
  /\ (forall w0 : world, length (timestamp_path w0) = 26).
Proof.
  intros Hout. repeat split.
  - intros Ht Hu Himg Hw. rewrite (main_cli_website a depth w Ht Hu), Hout.
    rewrite (generate_qr_code_ok _ None img w Himg Hw).
    eexists. split; reflexivity.
  - intros Ht Hn Hp He Himg Hw.
    rewrite (main_cli_contact a depth w Ht Hn Hp He), Hout. cbn [truthy].
    rewrite (generate_qr_code_ok _ (Some _) img w Himg Hw).
    eexists. split; reflexivity.
  - intros Ht url w1 Hret Himg Hw.
    rewrite (main_interactive_website a depth w w1 url Ht Hret).
    pose proof (resolver_keeps_env depth w) as Henv. rewrite Hret in Henv.
    destruct Henv as (_ & _ & Hf & _).
    rewrite (generate_qr_code_ok _ None img w1 Himg Hw).
    eexists. split; [reflexivity|]. cbn [files write store submit].
    now rewrite Hf.
  - intros Ht name phone email url w1 Hret Himg Hw.
    rewrite (main_interactive_contact a depth w w1 _ _ _ _ Ht Hret).
    pose proof (resolver_keeps_env depth w) as Henv. rewrite Hret in Henv.
    destruct Henv as (_ & _ & Hf & _).
    rewrite (generate_qr_code_ok _ (Some _) img w1 Himg Hw).
    eexists. split; [reflexivity|]. cbn [files write store submit].
    now rewrite Hf.
Qed.

(** An instance of C6: the four ways in, none with --output. *)
Lemma default_output_paths_witness :
  (exists w',
     @main Sample.lib (Sample.website_args (lit "https://example.com")) 1
       (Sample.session []) = Ret tt w'
     /\ files w' =
        <[lit "qrcode_20261104_090507.png" :=
            map Sample.to_byte (lit "https://example.com")]> ∅)
  /\ (exists w',
        @main Sample.lib
          (Sample.contact_args (Some (lit "Jane Doe")) (Some (lit "555-5678"))
             (Some (lit "jane@example.com"))) 1
          (Sample.session []) = Ret tt w'
        /\ files w' =
           <[lit "contact_qrcode.png" :=
               map Sample.to_byte
                 (generate_contact_vcard (lit "Jane Doe") (lit "555-5678")
                    (lit "jane@example.com") None)]> ∅)
  /\ (exists w',
        @main Sample.lib Sample.no_args 1
          (Sample.session [lit "1"; lit "https://example.com"]) = Ret tt w'
        /\ files w' =
           <[lit "qrcode_20261104_090507.png" :=
               map Sample.to_byte (lit "https://example.com")]> ∅)
  /\ (exists w',
        @main Sample.lib Sample.no_args 1
          (Sample.session [lit "2"; lit "Jane Doe"; lit "555-5678";
                           lit "jane@example.com"; lit ""]) = Ret tt w'
        /\ files w' =
           <[lit "contact_qrcode.png" :=
               map Sample.to_byte
                 (generate_contact_vcard (lit "Jane Doe") (lit "555-5678")
                    (lit "jane@example.com") None)]> ∅).
Proof.
  split; [|split; [|split]].
  - apply (proj1 (@default_output_paths Sample.lib
                    (Sample.website_args (lit "https://example.com")) 1
                    (Sample.session []) _ eq_refl));
      reflexivity.
  - apply (proj1 (proj2 (@default_output_paths Sample.lib
                    (Sample.contact_args (Some (lit "Jane Doe"))
                       (Some (lit "555-5678"))
                       (Some (lit "jane@example.com"))) 1
                    (Sample.session []) _ eq_refl)));
      reflexivity.
  - pose proof (resolver_website 0
                  (Sample.session [lit "1"; lit "https://example.com"])
                  (lit "1") (lit "https://example.com")
                  eq_refl eq_refl eq_refl) as Hrun.
    exact (proj1 (proj2 (proj2 (@default_output_paths Sample.lib
                    Sample.no_args 1 _ _ eq_refl))) eq_refl
             (lit "https://example.com") _ Hrun eq_refl eq_refl).
  - pose proof (resolver_contact 0
                  (Sample.session [lit "2"; lit "Jane Doe"; lit "555-5678";
                                   lit "jane@example.com"; lit ""])
                  (lit "2") (lit "Jane Doe") (lit "555-5678")
                  (lit "jane@example.com") (lit "")
                  eq_refl eq_refl eq_refl eq_refl eq_refl eq_refl) as Hrun.
    exact (proj1 (proj2 (proj2 (proj2 (@default_output_paths Sample.lib
                    Sample.no_args 1 _ _ eq_refl)))) eq_refl
             (lit "Jane Doe") (lit "555-5678") (lit "jane@example.com")
             None _ Hrun eq_refl eq_refl).
Defined.

(** C2: a required field left empty is refused from the command line, with
    a message and nothing encoded, but not from the prompts: with choice 2
    and an empty answer for the email, the script formats a record with an
    empty EMAIL: line, hands it to the encoder and, when the encoder accepts
    it, writes contact_qrcode.png; no error message is printed either way. *)
Theorem interactive_contact_without_email_is_encoded {lib : QRCodeLib} :
  let w0 := Sample.session [lit "2"; lit "Nathan Minarik";
                            lit "703.868.7182"; lit ""; lit ""] in
  let payload := generate_contact_vcard (lit "Nathan Minarik")
                   (lit "703.868.7182") (lit "") None in
  exists w',
    match make_image qr_settings payload with
    | Some img =>
        main Sample.no_args 1 w0 = Ret tt w'
        /\ files w' = <[lit "contact_qrcode.png" := img]> ∅
    | None => main Sample.no_args 1 w0 = Raise DataOverflowError w'
    end
    /\ encoded w' = [payload]
    /\ List.filter (startswith (lit "Error")) (stdout w') = []
    /\ payload = lit "BEGIN:VCARD" ++ [nl] ++ lit "VERSION:3.0" ++ [nl]
                 ++ lit "FN:Nathan Minarik" ++ [nl]
                 ++ lit "TEL:703.868.7182" ++ [nl]
                 ++ lit "EMAIL:" ++ [nl] ++ lit "END:VCARD"
    /\ @main lib (Sample.contact_args (Some (lit "Nathan Minarik"))
                    (Some (lit "703.868.7182")) None) 1 (Sample.session [])
       = Ret tt (write (lit "Error: --name, --phone, and --email are required for contact QR codes" ++ [nl])
                   (Sample.session [])).
Proof.
  cbv zeta.
  assert (Hrun :
    get_user_input_interactive 1
      (Sample.session [lit "2"; lit "Nathan Minarik"; lit "703.868.7182";
                       lit ""; lit ""]) =
    Ret (contact_dict (lit "Nathan Minarik") (lit "703.868.7182") (lit "")
           None)
        (contact_form
           (Sample.session [lit "2"; lit "Nathan Minarik";
                            lit "703.868.7182"; lit ""; lit ""])))
    by (apply (resolver_contact 0 _ (lit "2") (lit "Nathan Minarik")
                 (lit "703.868.7182") (lit "") (lit "")); reflexivity).
  rewrite (main_interactive_contact Sample.no_args 1 _ _ _ _ _ _ eq_refl Hrun).
  rewrite generate_qr_code_run. cbv zeta.
  destruct (make_image qr_settings
              (generate_contact_vcard (lit "Nathan Minarik")
                 (lit "703.868.7182") (lit "") None)) as [img|];
    eexists; repeat split.
Qed.

(** * Further properties of the code *)

(** ** Stripping *)

Lemma lstrip_fixed (c : char) (s : str) :
  isspace c = false -> lstrip (c :: s) = c :: s.
Proof. intros H. cbn [lstrip]. now rewrite H. Qed.

Lemma lstrip_head (s : str) :
  lstrip s = [] \/ exists c t, lstrip s = c :: t /\ isspace c = false.
Proof.
  induction s as [|c s IH]; [now left|].
  cbn [lstrip]. destruct (isspace c) eqn:Hc; [exact IH|].
  right. now exists c, s.
Qed.

Lemma lstrip_idempotent (s : str) : lstrip (lstrip s) = lstrip s.
Proof.
  destruct (lstrip_head s) as [->|(c & t & -> & Hc)]; [reflexivity|].
  now apply lstrip_fixed.
Qed.

(** Left-stripping never eats a last character that is no whitespace. *)
Lemma lstrip_keeps_last (c : char) (s : str) :
  isspace c = false -> exists t, lstrip (s ++ [c]) = t ++ [c].
Proof.
  intros Hc. induction s as [|d s IH].
  - exists []. now apply lstrip_fixed.
  - cbn [app lstrip]. destruct (isspace d); [exact IH|].
    now exists (d :: s).
Qed.

Lemma rstrip_keeps_head (c : char) (s : str) :
  isspace c = false -> exists t, rstrip (c :: s) = c :: t.
Proof.
  intros Hc. unfold rstrip. cbn [rev].
  destruct (lstrip_keeps_last c (rev s) Hc) as (t & ->).
  exists (rev t). now rewrite rev_app_distr.
Qed.

Lemma rstrip_idempotent (s : str) : rstrip (rstrip s) = rstrip s.
Proof.
  unfold rstrip. now rewrite rev_involutive, lstrip_idempotent.
Qed.

Lemma strip_idempotent (s : str) : strip (strip s) = strip s.
Proof.
  unfold strip.
  destruct (lstrip_head s) as [->|(c & t & -> & Hc)]; [reflexivity|].
  destruct (rstrip_keeps_head c t Hc) as (t' & Ht). rewrite Ht.
  rewrite (lstrip_fixed c t' Hc), <- Ht. apply rstrip_idempotent.
Qed.

(** A text that neither starts nor ends with whitespace is left alone. *)
Lemma strip_fixed (c d : char) (s : str) :
  isspace c = false -> isspace d = false ->
  strip (c :: s ++ [d]) = c :: s ++ [d].
Proof.
  intros Hc Hd. unfold strip. rewrite (lstrip_fixed c _ Hc).
  unfold rstrip. change (c :: s ++ [d]) with ((c :: s) ++ [d]).
  rewrite rev_app_distr. cbn [rev app].
  rewrite (lstrip_fixed d _ Hd).
  change (d :: rev s ++ [c]) with ([d] ++ rev (c :: s)).
  now rewrite rev_app_distr, rev_involutive.
Qed.

Lemma strip_fixed_ends (c d : char) (s : str) :
  head s = Some c -> last s = Some d ->
  isspace c = false -> isspace d = false ->
  strip s = s.
Proof.
  intros Hh Hl Hc Hd. apply last_Some in Hl as (l & ->).
  destruct l as [|c' l]; cbn [app head] in Hh.
  - cbn [app]. unfold strip, rstrip. cbn [lstrip]. rewrite Hd.
    cbn [rev app lstrip]. now rewrite Hd.
  - injection Hh as ->. now apply strip_fixed.
Qed.

(** ** More on the record formatter *)

(** The record with its optional part kept apart. *)
Lemma vcard_shape (name phone email : str) (url : option str) :
  generate_contact_vcard name phone email url =
  lit "BEGIN:VCARD" ++ nl :: lit "VERSION:3.0" ++ nl ::
  (lit "FN:" ++ name) ++ nl :: (lit "TEL:" ++ phone) ++ nl ::
  (lit "EMAIL:" ++ email) ++ nl :: join nl (url_field url ++ [lit "END:VCARD"]).
Proof.
  rewrite vcard_is_joined_fields. unfold vcard_fields, url_field.
  destruct url as [[|c u]|]; reflexivity.
Qed.

Lemma url_field_cases (url : option str) :
  url_field url = []
  \/ exists u, url = Some u /\ u <> [] /\ url_field url = [lit "URL:" ++ u].
Proof.
  unfold url_field. destruct url as [[|c u]|]; [now left| |now left].
  right. exists (c :: u). now repeat split.
Qed.

(** Two texts cut at their first line feed agree part by part. *)
Lemma cut_at_nl (a a' b b' : str) :
  nl ∉ a -> nl ∉ a' -> a ++ nl :: b = a' ++ nl :: b' -> a = a' /\ b = b'.
Proof.
  revert a'. induction a as [|c a IH]; intros [|c' a'] Ha Ha' H;
    cbn [app] in H.
  - injection H as ->. now split.
  - injection H as <- _. apply not_elem_of_cons in Ha' as [Hc _].
    now contradiction Hc.
  - injection H as -> _. apply not_elem_of_cons in Ha as [Hc _].
    now contradiction Hc.
  - injection H as -> H.
    apply not_elem_of_cons in Ha as [_ Ha].
    apply not_elem_of_cons in Ha' as [_ Ha'].
    destruct (IH a' Ha Ha' H) as [-> ->]. now split.
Qed.

(** The record has no whitespace at either end, whatever the fields hold:
    stripping it, as the test of its structure does before splitting it into
    lines, changes nothing. *)
Theorem vcard_is_stripped (name phone email : str) (url : option str) :
  strip (generate_contact_vcard name phone email url) =
  generate_contact_vcard name phone email url.
Proof.
  apply (strip_fixed_ends 66%N 68%N); try reflexivity.
  - rewrite vcard_shape. reflexivity.
  - unfold generate_contact_vcard.
    change (lit "END:VCARD") with (lit "END:VCAR" ++ [68%N]).
    rewrite !app_assoc. apply last_snoc.
Qed.

(** On fields without line feed the formatter is injective: equal records
    come from equal names, phones and emails and from the same url line, so
    that a url of None and an empty url are the only arguments it merges. *)
Theorem vcard_injective_single_line
    (name phone email name' phone' email' : str) (url url' : option str) :
  nl ∉ name -> nl ∉ phone -> nl ∉ email ->
  nl ∉ name' -> nl ∉ phone' -> nl ∉ email' ->
  generate_contact_vcard name phone email url =
  generate_contact_vcard name' phone' email' url' ->
  name = name' /\ phone = phone' /\ email = email'
  /\ url_field url = url_field url'
  /\ (truthy url = true -> truthy url' = true -> url = url').
Proof.
  intros Hn Hp He Hn' Hp' He' H. rewrite !vcard_shape in H.
  apply app_inv_head in H. injection H as H.
  apply cut_at_nl in H as [Hname H]; [|assumption..].
  injection H as H.
  apply cut_at_nl in H as [Hphone H]; [|assumption..].
  injection H as H.
  apply cut_at_nl in H as [Hemail H]; [|assumption..].
  assert (Hurl : url_field url = url_field url').
  { destruct (url_field_cases url) as [E|(u & _ & _ & E)];
      destruct (url_field_cases url') as [E'|(u' & _ & _ & E')];
      rewrite E, E' in *; cbn [app join] in H; trivial.
    - apply (f_equal head) in H. vm_compute in H. discriminate H.
    - apply (f_equal head) in H. vm_compute in H. discriminate H.
    - apply app_inv_tail in H. now rewrite H. }
  repeat split; trivial.
  intros Ht Ht'. unfold url_field in Hurl.
  destruct url as [u|]; [|discriminate Ht].
  destruct url' as [u'|]; [|discriminate Ht'].
  cbn [truthy] in Ht, Ht'. rewrite Ht, Ht' in Hurl.
  injection Hurl as Hurl. now subst.
Qed.

(** An instance: two records over single-line fields. *)
Lemma vcard_injective_single_line_witness :
  lit "Jane Doe" = lit "Jane Doe" /\ lit "555-5678" = lit "555-5678"
  /\ lit "jane@example.com" = lit "jane@example.com"
  /\ url_field None = url_field (Some (lit ""))
  /\ (truthy None = true -> truthy (Some (lit "")) = true ->
      None = Some (lit "")).
Proof.
  apply (vcard_injective_single_line (lit "Jane Doe") (lit "555-5678")
           (lit "jane@example.com") (lit "Jane Doe") (lit "555-5678")
           (lit "jane@example.com") None (Some (lit "")));
    try decide_closed.
  reflexivity.
Defined.

(** ** More on the input resolver *)

(** Whatever the resolver returns was built from stripped answers. *)
Lemma resolver_returns_stripped (depth : nat) :
  returns (get_user_input_interactive depth)
    (fun d =>
       (exists l, d = website_dict (strip l))
       \/ (exists a b c u,
             d = contact_dict (strip a) (strip b) (strip c)
                   (if nonempty (strip u) then Some (strip u) else None))).
Proof.
  induction depth as [|d IH]; [intros w a w'; discriminate|].
  cbn [get_user_input_interactive].
  repeat (apply returns_bind; intros ?).
  repeat match goal with
         | |- returns (if ?b then _ else _) _ => destruct b
         | |- returns (bind _ _) _ => apply returns_bind; intros ?
         end; try apply returns_exit; try exact IH.
  - apply returns_ret. left. eexists. reflexivity.
  - apply returns_ret. right. do 4 eexists. reflexivity.
Qed.

(** Every string in the dict the resolver returns is stripped: no answer
    keeps whitespace at either end, under any key. *)
Theorem resolver_values_stripped
    (depth : nat) (w w' : world) (d : gmap string pyval) :
  get_user_input_interactive depth w = Ret d w' ->
  forall (key : string) (s : str), d !! key = Some (Some s) -> strip s = s.
Proof.
  intros Hret key s Hs.
  destruct (resolver_returns_stripped depth w d w' Hret)
    as [(l & ->)|(a & b & c & u & ->)];
    unfold website_dict, contact_dict in Hs;
    repeat (rewrite lookup_insert in Hs; case_decide;
            [injection Hs as Hs|]);
    try (rewrite lookup_empty in Hs; discriminate Hs);
    try (subst s;
         lazymatch goal with
         | |- strip (strip _) = strip _ => apply strip_idempotent
         | |- _ => vm_compute; reflexivity
         end).
  destruct (nonempty (strip u)); [|discriminate Hs].
  injection Hs as <-. apply strip_idempotent.
Qed.

(** An instance: a name typed with blanks around it. *)
Lemma resolver_values_stripped_witness :
  strip (lit "Jane Doe") = lit "Jane Doe".
Proof.
  assert (Hrun :
    get_user_input_interactive 1
      (Sample.session [lit " 2 "; lit "  Jane Doe "; lit "555-5678";
                       lit "jane@example.com"; lit ""]) =
    Ret (contact_dict (strip (lit "  Jane Doe ")) (strip (lit "555-5678"))
           (strip (lit "jane@example.com"))
           (if nonempty (strip (lit "")) then Some (strip (lit ""))
            else None))
        (contact_form
           (Sample.session [lit " 2 "; lit "  Jane Doe "; lit "555-5678";
                            lit "jane@example.com"; lit ""]))).
  { apply (resolver_contact 0 _ (lit " 2 ")); vm_compute; reflexivity. }
  apply (resolver_values_stripped 1 _ _ _ Hrun "name").
  vm_compute. reflexivity.
Defined.

(** ** More on the image emitter *)

(** How a run of the emitter can end, and what it leaves behind. *)
Lemma generate_qr_code_cases {lib : QRCodeLib}
    (data : str) (output_path : option str) (w : world) :
  match generate_qr_code data output_path w with
  | Ret _ w' =>
      exists img,
        make_image qr_settings data = Some img
        /\ writable w (resolved_path output_path w) = true
        /\ files w' = <[resolved_path output_path w := img]> (files w)
        /\ stdout w' =
           stdout w ++ [saved_notice (resolved_path output_path w)]
        /\ encoded w' = encoded w ++ [data]
  | Raise e w' =>
      files w' = files w /\ stdout w' = stdout w
      /\ encoded w' = encoded w ++ [data]
      /\ (e = DataOverflowError /\ make_image qr_settings data = None
          \/ e = OSError /\ make_image qr_settings data <> None
             /\ writable w (resolved_path output_path w) = false)
  | Exit _ _ | OutOfFuel => False
  end.
Proof.
  rewrite generate_qr_code_run. cbv zeta.
  destruct (make_image qr_settings data) as [img|] eqn:Himg.
  - destruct (writable w (resolved_path output_path w)) eqn:Hw.
    + exists img. now repeat split.
    + repeat split. right. now repeat split.
  - repeat split. now left.
Qed.


(** A second run at the same path replaces the file of the first: what is
    read back at the path is the second image, every other file is as it was
    before either run, and the file system is the one a single run of the
    second payload would have left.  In particular a repeated run changes
    nothing. *)
Theorem emitter_overwrites_in_place {lib : QRCodeLib}
    (data data' : str) (path : str) (img' : bytes) (w w1 : world) :
  generate_qr_code data (Some path) w = Ret tt w1 ->
  make_image qr_settings data' = Some img' ->
  exists w2,
    generate_qr_code data' (Some path) w1 = Ret tt w2
    /\ files w2 !! path = Some img'
    /\ (forall q, q <> path -> files w2 !! q = files w !! q)
    /\ files w2 = <[path := img']> (files w)
    /\ (data' = data -> files w2 = files w1).
Proof.
  intros Hrun Himg'. rewrite generate_qr_code_run in Hrun. cbv zeta in Hrun.
  cbn [resolved_path] in Hrun.
  destruct (make_image qr_settings data) as [img|] eqn:Himg;
    [|discriminate Hrun].
  destruct (writable w path) eqn:Hw; [|discriminate Hrun].
  injection Hrun as <-.
  rewrite (generate_qr_code_ok data' (Some path) img'); [|exact Himg'|exact Hw].
  eexists. split; [reflexivity|]. cbn [files write store submit resolved_path].
  rewrite insert_insert_eq. repeat split.
  - apply lookup_insert_eq.
  - intros q Hq. now apply lookup_insert_ne.
  - intros ->. rewrite Himg in Himg'. now injection Himg' as ->.
Qed.

(** An instance: two payloads written one after the other at one path. *)
Lemma emitter_overwrites_in_place_witness :
  exists w2,
    @generate_qr_code Sample.lib (lit "https://b.example")
      (Some (lit "qr.png"))
      (write (saved_notice (lit "qr.png"))
         (store (lit "qr.png") (map Sample.to_byte (lit "https://a.example"))
            (submit (lit "https://a.example") (Sample.session []))))
    = Ret tt w2
    /\ files w2 !! lit "qr.png"
       = Some (map Sample.to_byte (lit "https://b.example")).
Proof.
  destruct (@emitter_overwrites_in_place Sample.lib
              (lit "https://a.example") (lit "https://b.example")
              (lit "qr.png") (map Sample.to_byte (lit "https://b.example"))
              (Sample.session []) _ eq_refl eq_refl)
    as (w2 & Hrun & Hread & _).
  exists w2. split; [exact Hrun|exact Hread].
Defined.

Lemma digit_inj (a b : N) : digit a = digit b -> (a mod 10 = b mod 10)%N.
Proof. unfold digit. lia. Qed.

(** Two digits name one number below 100. *)
Lemma pad2_inj (a b : N) :
  (a < 100)%N -> (b < 100)%N ->
  ((a / 10) mod 10 = (b / 10) mod 10)%N -> (a mod 10 = b mod 10)%N -> a = b.
Proof.
  intros Ha Hb Ht Hu.
  pose proof (N.Div0.div_mod a 10). pose proof (N.Div0.div_mod b 10).
  assert (a / 10 < 10)%N by (apply N.Div0.div_lt_upper_bound; lia).
  assert (b / 10 < 10)%N by (apply N.Div0.div_lt_upper_bound; lia).
  rewrite (N.mod_small (a / 10) 10) in Ht by assumption.
  rewrite (N.mod_small (b / 10) 10) in Ht by assumption.
  lia.
Qed.

(** Four digits name one number below 10000. *)
Lemma pad4_inj (a b : N) :
  (a < 10000)%N -> (b < 10000)%N -> pad4 a = pad4 b -> a = b.
Proof.
  intros Ha Hb H. unfold pad4 in H. injection H as H3 H2 H1 H0.
  apply digit_inj in H3, H2, H1, H0.
  pose proof (N.Div0.div_mod a 100). pose proof (N.Div0.div_mod b 100).
  assert (a / 100 < 100)%N by (apply N.Div0.div_lt_upper_bound; lia).
  assert (b / 100 < 100)%N by (apply N.Div0.div_lt_upper_bound; lia).
  assert (a mod 100 < 100)%N by (apply N.mod_upper_bound; lia).
  assert (b mod 100 < 100)%N by (apply N.mod_upper_bound; lia).
  assert (Hhi : (a / 100 = b / 100)%N).
  { apply pad2_inj; trivial.
    now rewrite !N.Div0.div_div; change (100 * 10)%N with 1000%N. }
  assert (Hlo : (a mod 100 = b mod 100)%N).
  { apply pad2_inj; trivial.
    - replace ((a mod 100) / 10)%N with ((a / 10) mod 10)%N.
      2:{ change 100%N with (10 * 10)%N.
          rewrite N.Div0.mod_mul_r, N.mul_comm, N.div_add by lia.
          rewrite (N.div_small (a mod 10) 10) by (apply N.mod_upper_bound; lia).
          lia. }
      replace ((b mod 100) / 10)%N with ((b / 10) mod 10)%N.
      2:{ change 100%N with (10 * 10)%N.
          rewrite N.Div0.mod_mul_r, N.mul_comm, N.div_add by lia.
          rewrite (N.div_small (b mod 10) 10) by (apply N.mod_upper_bound; lia).
          lia. }
      now rewrite !N.Div0.mod_mod.
    - change 100%N with (10 * 10)%N.
      rewrite !N.Div0.mod_mul_r, !(N.mul_comm 10), !N.Div0.mod_add.
      now rewrite !N.Div0.mod_mod. }
  lia.
Qed.

(** The timestamp names the second: within the range of the clock, two
    readings give the same file name exactly when they are the same reading.
    So two runs without a path overwrite each other only when they fall in
    the same second. *)
Theorem timestamp_name_determines_second (w1 w2 : world) :
  calendar (now w1) -> calendar (now w2) ->
  (timestamp_path w1 = timestamp_path w2 <-> now w1 = now w2).
Proof.
  intros C1 C2. split; [|unfold timestamp_path; now intros ->].
  unfold timestamp_path. intros H.
  apply app_inv_head, app_inv_tail in H.
  destruct (now w1) as [y1 mo1 d1 h1 mi1 s1], (now w2) as [y2 mo2 d2 h2 mi2 s2].
  unfold calendar in C1, C2. cbn [year month day hour minute second] in *.
  unfold strftime in H. cbn [year month day hour minute second] in H.
  apply app_inj_1 in H as [Hy Hrest]; [|reflexivity].
  apply pad4_inj in Hy; [|lia..].
  unfold pad2 in Hrest. cbn [app] in Hrest.
  injection Hrest as M1 M0 D1 D0 H1 H0 I1 I0 S1 S0.
  apply digit_inj in M1, M0, D1, D0, H1, H0, I1, I0, S1, S0.
  f_equal; trivial; apply pad2_inj; trivial; lia.
Qed.

(** An instance: the sample clock against itself. *)
Lemma timestamp_name_determines_second_witness :
  timestamp_path (Sample.session []) = timestamp_path (Sample.endless [])
  <-> now (Sample.session []) = now (Sample.endless []).
Proof.
  apply timestamp_name_determines_second;
    vm_compute; repeat split; discriminate.
Defined.

(** ** More on the argument dispatcher *)

(** A required option missing on the command line, or given as the empty
    string, makes the script print one line starting with Error: and
    return: it reads no input, asks the encoder nothing and touches no
    file. *)
Theorem cli_missing_field_rejected {lib : QRCodeLib}
    (a : args) (depth : nat) (w : world) :
  (arg_type a = Some website /\ truthy (arg_url a) = false)
  \/ (arg_type a = Some contact
      /\ (truthy (arg_name a) = false \/ truthy (arg_phone a) = false
          \/ truthy (arg_email a) = false)) ->
  exists msg w',
    main a depth w = Ret tt w'
    /\ stdout w' = stdout w ++ [msg ++ [nl]]
    /\ startswith (lit "Error: ") msg = true
    /\ files w' = files w /\ encoded w' = encoded w
    /\ stdin_pos w' = stdin_pos w.
Proof.
  intros [[Ht Hu]|[Ht Hmiss]].
  - rewrite (proj1 (main_cli_missing a depth w) (conj Ht Hu)).
    do 2 eexists. now repeat split.
  - assert (Hall : truthy (arg_name a) && truthy (arg_phone a)
                   && truthy (arg_email a) = false).
    { destruct Hmiss as [->|[->| ->]];
        rewrite ?andb_false_r; reflexivity. }
    rewrite (proj2 (main_cli_missing a depth w) (conj Ht Hall)).
    do 2 eexists. now repeat split.
Qed.

(** An instance: a contact without email, and a website with an empty
    url. *)
Lemma cli_missing_field_rejected_witness :
  (exists msg w',
     @main Sample.lib
       (Sample.contact_args (Some (lit "Jane Doe")) (Some (lit "555-5678"))
          None) 0 (Sample.session []) = Ret tt w'
     /\ stdout w' = stdout (Sample.session []) ++ [msg ++ [nl]]
     /\ startswith (lit "Error: ") msg = true
     /\ files w' = files (Sample.session [])
     /\ encoded w' = encoded (Sample.session [])
     /\ stdin_pos w' = stdin_pos (Sample.session []))
  /\ (exists msg w',
        @main Sample.lib (Sample.website_args (lit "")) 0 (Sample.session [])
        = Ret tt w'
        /\ stdout w' = stdout (Sample.session []) ++ [msg ++ [nl]]
        /\ startswith (lit "Error: ") msg = true
        /\ files w' = files (Sample.session [])
        /\ encoded w' = encoded (Sample.session [])
        /\ stdin_pos w' = stdin_pos (Sample.session [])).
Proof.
  split.
  - apply (@cli_missing_field_rejected Sample.lib). right.
    split; [reflexivity|]. right. right. reflexivity.
  - apply (@cli_missing_field_rejected Sample.lib). left.
    split; reflexivity.
Defined.

(** With --type given, --output decides the file in the website flow
    whatever it holds, the timestamp name standing in only when it is
    absent; in the contact flow an --output that is absent or empty gives
    way to contact_qrcode.png. *)
Theorem cli_output_honoured {lib : QRCodeLib}
    (a : args) (depth : nat) (w : world) (img : bytes) :
  (arg_type a = Some website ->
   truthy (arg_url a) = true ->
   make_image qr_settings (py_str (arg_url a)) = Some img ->
   writable w (resolved_path (arg_output a) w) = true ->
   exists w',
     main a depth w = Ret tt w'
     /\ files w' = <[resolved_path (arg_output a) w := img]> (files w))
  /\ (arg_type a = Some contact ->
      truthy (arg_name a) = true -> truthy (arg_phone a) = true ->
      truthy (arg_email a) = true ->
      make_image qr_settings
        (generate_contact_vcard (py_str (arg_name a)) (py_str (arg_phone a))
           (py_str (arg_email a)) (arg_website a)) = Some img ->
      forall path,
        path = (if truthy (arg_output a) then py_str (arg_output a)
                else lit "contact_qrcode.png") ->
        writable w path = true ->
        exists w',
          main a depth w = Ret tt w'
          /\ files w' = <[path := img]> (files w)).
Proof.
  split.
  - intros Ht Hu Himg Hw. rewrite (main_cli_website a depth w Ht Hu).
    rewrite (generate_qr_code_ok _ _ img w Himg Hw).
    eexists. split; reflexivity.
  - intros Ht Hn Hp He Himg path -> Hw.
    rewrite (main_cli_contact a depth w Ht Hn Hp He).
    destruct (arg_output a) as [[|c p]|]; cbn [truthy nonempty py_str] in *;
      rewrite (generate_qr_code_ok _ (Some _) img w Himg Hw);
      eexists; split; reflexivity.
Qed.

(** An instance: --output given in both flows. *)
Lemma cli_output_honoured_witness :
  (exists w',
     @main Sample.lib
       {| arg_type := Some website; arg_url := Some (lit "https://example.com");
          arg_name := None; arg_phone := None; arg_email := None;
          arg_website := None; arg_output := Some (lit "site.png") |}
       0 (Sample.session []) = Ret tt w'
     /\ files w' =
        <[lit "site.png" := map Sample.to_byte (lit "https://example.com")]>
          ∅)
  /\ (exists w',
        @main Sample.lib
          {| arg_type := Some contact; arg_url := None;
             arg_name := Some (lit "Jane Doe");
             arg_phone := Some (lit "555-5678");
             arg_email := Some (lit "jane@example.com");
             arg_website := None; arg_output := Some (lit "") |}
          0 (Sample.session []) = Ret tt w'
        /\ files w' =
           <[lit "contact_qrcode.png" :=
               map Sample.to_byte
                 (generate_contact_vcard (lit "Jane Doe") (lit "555-5678")
                    (lit "jane@example.com") None)]> ∅).
Proof.
  split.
  - apply (proj1 (@cli_output_honoured Sample.lib
                    {| arg_type := Some website;
                       arg_url := Some (lit "https://example.com");
                       arg_name := None; arg_phone := None;
                       arg_email := None; arg_website := None;
                       arg_output := Some (lit "site.png") |}
                    0 (Sample.session [])
                    (map Sample.to_byte (lit "https://example.com"))));
      reflexivity.
  - apply (proj2 (@cli_output_honoured Sample.lib
                    {| arg_type := Some contact; arg_url := None;
                       arg_name := Some (lit "Jane Doe");
                       arg_phone := Some (lit "555-5678");
                       arg_email := Some (lit "jane@example.com");
                       arg_website := None; arg_output := Some (lit "") |}
                    0 (Sample.session [])
                    (map Sample.to_byte
                       (generate_contact_vcard (lit "Jane Doe")
                          (lit "555-5678") (lit "jane@example.com") None))));
      reflexivity.
Defined.

Lemma stops_well_ret {A} (a : A) : stops_well (ret a).
Proof. intros w. exact I. Qed.

Lemma stops_well_exit0 {A} : stops_well (@exit A 0).
Proof. intros w. reflexivity. Qed.

Lemma stops_well_print (s : str) : stops_well (print s).
Proof. intros w. exact I. Qed.

Lemma stops_well_input (prompt : str) : stops_well (input prompt).
Proof.
  intros w. unfold input. now destruct (stdin w (stdin_pos w)).
Qed.


#[local] Hint Resolve stops_well_ret stops_well_exit0 stops_well_print
  stops_well_input : resolver.


Section MainInteractive.
Context {lib : QRCodeLib}.

(** Interactive mode: when the prompt does not return, neither does the
    script, and it ends the same way. *)
Lemma main_interactive_stops (a : args) (depth : nat) (w : world) :
  arg_type a = None ->
  (forall c w1, get_user_input_interactive depth w = Exit c w1 ->
                main a depth w = Exit c w1)
  /\ (forall e w1, get_user_input_interactive depth w = Raise e w1 ->
                   main a depth w = Raise e w1)
  /\ (get_user_input_interactive depth w = OutOfFuel ->
      main a depth w = OutOfFuel).
Proof.
  intros Ht.
  split; [intros c w1 H|split; [intros e w1 H|intros H]];
    unfold main; rewrite Ht; unfold bind at 1; rewrite H; reflexivity.
Qed.

End MainInteractive.

(** Without --type every other option is ignored: the run depends on what is
    typed, not on the command line, so that an --output given there names no
    file. *)
Theorem interactive_ignores_arguments {lib : QRCodeLib}
    (a a' : args) (depth : nat) (w : world) :
  arg_type a = None -> arg_type a' = None ->
  main a depth w = main a' depth w
  /\ (forall w', main a depth w = Ret tt w' ->
      forall p, arg_output a = Some p ->
        p <> lit "contact_qrcode.png" -> p <> timestamp_path w ->
        files w' !! p = files w !! p).
Proof.
  intros Ht Ht'. split; [unfold main; now rewrite Ht, Ht'|].
  intros w' Hrun p _ Hc Hts.
  destruct (main_interactive_stops a depth w Ht) as (Hexit & Hraise & Hfuel).
  destruct (get_user_input_interactive depth w) as [d w1|c w1|e w1|] eqn:Hret;
    [|rewrite (Hexit _ _ eq_refl) in Hrun; discriminate Hrun
     |rewrite (Hraise _ _ eq_refl) in Hrun; discriminate Hrun
     |rewrite (Hfuel eq_refl) in Hrun; discriminate Hrun].
  clear Hexit Hraise Hfuel.
  pose proof (resolver_keeps_env depth w) as Henv. rewrite Hret in Henv.
  destruct Henv as (_ & Hnow & Hf & _).
  destruct (resolver_returns_result depth w d w1 Hret)
    as [(url & ->)|(name & phone & email & url & -> & _)].
  - rewrite (main_interactive_website a depth w w1 url Ht Hret) in Hrun.
    pose proof (generate_qr_code_cases url None w1) as Hout.
    rewrite Hrun in Hout. destruct Hout as (img & _ & _ & Hfiles & _).
    rewrite Hfiles, Hf. cbn [resolved_path] in *.
    apply lookup_insert_ne. unfold timestamp_path in *. now rewrite Hnow.
  - rewrite (main_interactive_contact a depth w w1 _ _ _ _ Ht Hret) in Hrun.
    pose proof (generate_qr_code_cases
                  (generate_contact_vcard name phone email url)
                  (Some (lit "contact_qrcode.png")) w1) as Hout.
    rewrite Hrun in Hout. destruct Hout as (img & _ & _ & Hfiles & _).
    rewrite Hfiles, Hf. cbn [resolved_path] in *.
    apply lookup_insert_ne. congruence.
Qed.

(** An instance: --output on the command line, contact typed at the
    prompt. *)
Lemma interactive_ignores_arguments_witness :
  @main Sample.lib
    {| arg_type := None; arg_url := None; arg_name := None;
       arg_phone := None; arg_email := None; arg_website := None;
       arg_output := Some (lit "mine.png") |} 1
    (Sample.session [lit "2"; lit "Jane Doe"; lit "555-5678";
                     lit "jane@example.com"; lit ""])
  = @main Sample.lib Sample.no_args 1
      (Sample.session [lit "2"; lit "Jane Doe"; lit "555-5678";
                       lit "jane@example.com"; lit ""]).
Proof.
  apply (@interactive_ignores_arguments Sample.lib
           {| arg_type := None; arg_url := None; arg_name := None;
              arg_phone := None; arg_email := None; arg_website := None;
              arg_output := Some (lit "mine.png") |} Sample.no_args);
    reflexivity.
Defined.

(** After any number of rejected lines, choice 3 ends the process with
    status 0 and the end of the input raises EOFError; either way the
    encoder is not asked and no file is touched. *)
Theorem interactive_exit_or_eof {lib : QRCodeLib}
    (a : args) (n depth : nat) (w : world) :
  arg_type a = None ->
  (forall i, i < n ->
     exists line, stdin w (i + stdin_pos w) = Some line
                  /\ invalid_choice line) ->
  (forall line,
     stdin w (n + stdin_pos w) = Some line -> strip line = lit "3" ->
     exists w',
       main a (n + S depth) w = Exit 0 w'
       /\ files w' = files w /\ encoded w' = encoded w
       /\ last (stdout w') = Some (lit "Exiting..." ++ [nl]))
  /\ (stdin w (n + stdin_pos w) = None ->
      exists w',
        main a (n + S depth) w = Raise EOFError w'
        /\ files w' = files w /\ encoded w' = encoded w).
Proof.
  intros Ht Hbad.
  destruct (main_interactive_stops a (n + S depth) w Ht)
    as (Hexit & Hraise & _).
  pose proof (reprompt_stdin n w) as [Hs Hp].
  pose proof (resolver_keeps_env (n + S depth) w) as Henv.
  split.
  - intros line Hl Hc.
    assert (Hrun := resolver_invalid_run n (S depth) w Hbad).
    rewrite (resolver_exit depth (Nat.iter n reprompt w) line) in Hrun
      by (rewrite ?Hs, ?Hp; assumption).
    rewrite Hrun in Henv. destruct Henv as (_ & _ & Hf & _ & He).
    eexists. split; [apply Hexit, Hrun|]. repeat split; trivial.
    cbn [stdout write]. apply last_snoc.
  - intros Hl.
    assert (Hrun := resolver_invalid_run n (S depth) w Hbad).
    rewrite (resolver_eof depth (Nat.iter n reprompt w)) in Hrun
      by (rewrite ?Hs, ?Hp; assumption).
    rewrite Hrun in Henv. destruct Henv as (_ & _ & Hf & _ & He).
    eexists. split; [apply Hraise, Hrun|]. now split.
Qed.

(** An instance: one rejected line, then the exit choice. *)
Lemma interactive_exit_or_eof_witness :
  exists w',
    @main Sample.lib Sample.no_args 2
      (Sample.session [lit "0"; lit " 3 "]) = Exit 0 w'
    /\ files w' = files (Sample.session [lit "0"; lit " 3 "])
    /\ encoded w' = encoded (Sample.session [lit "0"; lit " 3 "])
    /\ last (stdout w') = Some (lit "Exiting..." ++ [nl]).
Proof.
  refine (proj1 (@interactive_exit_or_eof Sample.lib Sample.no_args 1 0
                   (Sample.session [lit "0"; lit " 3 "]) eq_refl _)
            (lit " 3 ") eq_refl eq_refl).
  intros [|i] Hi; [|lia].
  exists (lit "0"). split; [reflexivity|reject_line].
Defined.

Section MainEffects.
Context {lib : QRCodeLib}.


End MainEffects.


Section Payloads.
Context {lib : QRCodeLib}.

(** The emitter hands its payload to the encoder however the run ends. *)
Lemma emitter_submits (data : str) (output_path : option str) (w w1 : world) :
  encoded w1 = encoded w ->
  exists w',
    final_world (generate_qr_code data output_path w1) = Some w'
    /\ encoded w' = encoded w ++ [data].
Proof.
  intros He. rewrite generate_qr_code_run. cbv zeta.
  destruct (make_image qr_settings data);
    [destruct (writable w1 (resolved_path output_path w1))|];
    eexists; (split; [reflexivity|]); cbn [encoded write store submit];
    now rewrite He.
Qed.

End Payloads.

(** What reaches the encoder, flow by flow, whether or not the image is then
    written.  From the command line it is the url exactly as given, or the
    record of the fields exactly as given; from the prompt it is the
    stripped url, or the record of the stripped answers with an empty url
    answer left out. *)
Theorem encoded_payload_per_flow {lib : QRCodeLib}
    (a : args) (depth : nat) (w : world) :
  (arg_type a = Some website ->
   forall url, arg_url a = Some url -> url <> [] ->
   exists w',
     final_world (main a depth w) = Some w'
     /\ encoded w' = encoded w ++ [url])
  /\ (arg_type a = Some contact ->
      forall name phone email,
        arg_name a = Some name -> arg_phone a = Some phone ->
        arg_email a = Some email ->
        name <> [] -> phone <> [] -> email <> [] ->
        exists w',
          final_world (main a depth w) = Some w'
          /\ encoded w' =
             encoded w
             ++ [generate_contact_vcard name phone email (arg_website a)])
  /\ (arg_type a = None ->
      forall line url,
        stdin w (stdin_pos w) = Some line -> strip line = lit "1" ->
        stdin w (S (stdin_pos w)) = Some url ->
        exists w',
          final_world (main a (S depth) w) = Some w'
          /\ encoded w' = encoded w ++ [strip url])
  /\ (arg_type a = None ->
      forall line name phone email url,
        stdin w (stdin_pos w) = Some line -> strip line = lit "2" ->
        stdin w (1 + stdin_pos w) = Some name ->
        stdin w (2 + stdin_pos w) = Some phone ->
        stdin w (3 + stdin_pos w) = Some email ->
        stdin w (4 + stdin_pos w) = Some url ->
        exists w',
          final_world (main a (S depth) w) = Some w'
          /\ encoded w' =
             encoded w
             ++ [generate_contact_vcard (strip name) (strip phone)
                   (strip email)
                   (if nonempty (strip url) then Some (strip url)
                    else None)]).
Proof.
  repeat split.
  - intros Ht url Hu Hne.
    rewrite (main_cli_website a depth w Ht), Hu;
      [|rewrite Hu; now destruct url].
    now apply emitter_submits.
  - intros Ht name phone email Hn Hp He Hnn Hpn Hen.
    rewrite (main_cli_contact a depth w Ht), Hn, Hp, He;
      [|rewrite ?Hn, ?Hp, ?He; cbn [truthy];
        match goal with |- nonempty ?s = true => now destruct s end..].
    now apply emitter_submits.
  - intros Ht line url Hl Hc Hu.
    rewrite (main_interactive_website a (S depth) w _ _ Ht
               (resolver_website depth w line url Hl Hc Hu)).
    now apply emitter_submits.
  - intros Ht line name phone email url Hl Hc Hn Hp He Hu.
    rewrite (main_interactive_contact a (S depth) w _ _ _ _ _ Ht
               (resolver_contact depth w line name phone email url
                  Hl Hc Hn Hp He Hu)).
    now apply emitter_submits.
Qed.

(** An instance: a url with blanks around it, given on the command line and
    typed at the prompt. *)
Lemma encoded_payload_per_flow_witness :
  (exists w',
     final_world
       (@main Sample.lib (Sample.website_args (lit " https://example.com "))
          0 (Sample.session [])) = Some w'
     /\ encoded w' = [lit " https://example.com "])
  /\ (exists w',
        final_world
          (@main Sample.lib Sample.no_args 1
             (Sample.session [lit "1"; lit " https://example.com "]))
        = Some w'
        /\ encoded w' = [strip (lit " https://example.com ")]).
Proof.
  split.
  - refine (proj1 (@encoded_payload_per_flow Sample.lib
                     (Sample.website_args (lit " https://example.com ")) 0
                     (Sample.session [])) eq_refl _ eq_refl _).
    intros H. vm_compute in H. discriminate H.
  - exact (proj1 (proj2 (proj2 (@encoded_payload_per_flow Sample.lib
                     Sample.no_args 0
                     (Sample.session [lit "1"; lit " https://example.com "]))))
             eq_refl (lit "1") (lit " https://example.com ")
             eq_refl eq_refl eq_refl).
Defined.
